(** * receptiviti.request: a shallow embedding of [src/receptiviti/request.py]

    The development follows the source top to bottom: the data frame
    built from the texts and ids, the duplicate filter, the grouping of
    rows into bundles, the byte-size split of a group, [_process] and its
    retries, the concatenation of the per-bundle frames and the column
    post-processing ([drop], [filter(regex=...)], prefix stripping).

    What the source delegates to libraries is modelled after the
    libraries' documented behaviour, each time stated where it is used:
    - [pandas.DataFrame.duplicated], boolean indexing, [groupby] on an
      array key, positional slicing, [concat], [drop], [filter], [to_csv];
    - [numpy.arange] and [numpy.tile];
    - [re.search] and [re.sub] for the two patterns the source builds;
    - [hashlib.md5], written out after RFC 1321;
    - [json.dumps], for the size of the body of a POST;
    - [sys.getsizeof], which stays a parameter of the development. *)

From Stdlib Require Import String Ascii ZArith QArith Qround Lia Bool Arith.
From Stdlib Require Import List Permutation Sorted.
From Equations Require Import Equations.
Import ListNotations.

Set Implicit Arguments.

Local Open Scope Z_scope.
Local Open Scope string_scope.
Local Open Scope list_scope.

(** ** Exceptions and results *)

(** The exceptions a run can end with.  The first five are raised by the
    source itself (or by the statement named); the others come out of the
    library call named in the comment. *)
Inductive exn : Type :=
| OutputFileExists        (* RuntimeError: `output` file already exists *)
| ApiStatusFailed (code : Z) (* RuntimeError: API status failed *)
| IdsLengthMismatch       (* RuntimeError: `ids` is not the same length as `text` *)
| NoValidTexts            (* RuntimeError: no valid texts to process *)
| TextOverBundleLimit     (* RuntimeError: one of your texts is over the bundle size limit *)
| GrouperAxisLength       (* pandas groupby: Grouper and axis must be same length *)
| MissingTextEncode       (* AttributeError: text.encode() on a missing text *)
| ResultsNotReadable      (* res.json()["results"] or json_normalize raises *)
| NoObjectsToConcatenate  (* pandas.concat([]) *)
| AllObjectsNone          (* pandas.concat of a list holding only None *)
| JoinExpectedStr.        (* '|'.join(select): sequence item is a list *)

Inductive result (A : Type) : Type :=
| Ok (a : A)
| Raise (e : exn).
Arguments Ok {A} a.
Arguments Raise {A} e.

Definition bind {A B} (r : result A) (k : A -> result B) : result B :=
  match r with
  | Ok a => k a
  | Raise e => Raise e
  end.

Declare Scope result_scope.
Delimit Scope result_scope with result.
Notation "'do' x <- r ; k" := (bind r (fun x => k))
  (at level 10, x name, r at level 100, k at level 200) : result_scope.
Notation "'check' b 'else' e ; k" := (if b then k else Raise e)
  (at level 10, b at level 100, e at level 100, k at level 200) : result_scope.
Local Open Scope result_scope.

(** ** Python sequences *)

Module Py.

(** [l[start:stop]] for non-negative bounds: out-of-range bounds clip. *)
Definition slice {A} (start stop : nat) (l : list A) : list A :=
  firstn (stop - start) (skipn start l).

(** [l[start:]] *)
Definition slice_from {A} (start : nat) (l : list A) : list A :=
  skipn start l.

(** [numpy.arange(stop)] for a real [stop]: the integers [0 .. ceil(stop)-1]
    (empty when [stop <= 0]).  The float quotient of the source is kept
    as an exact rational. *)
Definition arange (stop : Q) : list nat :=
  seq 0 (Z.to_nat (Qceiling stop)).

(** [numpy.tile(a, reps)]: [reps] copies of [a] in a row. *)
Definition tile {A} (a : list A) (reps : nat) : list A :=
  concat (repeat a reps).

End Py.

(** ** The data frame of texts and ids *)

(** An id is a string or an integer ([ids: str | list]). *)
Inductive ident : Type :=
| IdInt (n : Z)
| IdStr (s : string).

Module Data.

(** One row of [pandas.DataFrame({"text": text, "id": ids})].  A text is
    [None] when it is missing ([None] or NaN in the input). *)
Record row : Type := { text : option string; id : ident }.

Definition frame : Type := list row.

End Data.

Definition text_eqb (a b : option string) : bool :=
  match a, b with
  | Some x, Some y => String.eqb x y
  | None, None => true
  | _, _ => false
  end.

(** [Series.duplicated()] with the default [keep="first"]: a position is
    marked when its value occurred at an earlier position; missing values
    count as equal to each other. *)
Fixpoint duplicated_from (seen : list (option string)) (l : list (option string))
  : list bool :=
  match l with
  | [] => []
  | t :: l' => existsb (text_eqb t) seen :: duplicated_from (seen ++ [t]) l'
  end.

Definition duplicated (l : list (option string)) : list bool :=
  duplicated_from [] l.

(** Equality of the text with the empty string, and [data["text"].isna()],
    elementwise. *)
Definition is_empty_text (t : option string) : bool :=
  match t with Some s => String.eqb s EmptyString | None => false end.

Definition isna (t : option string) : bool :=
  match t with Some _ => false | None => true end.

(** The mask of line 140: not duplicated, or empty, or missing. *)
Definition keep_mask (data : Data.frame) : list bool :=
  map (fun '(dup, t) => negb dup || is_empty_text t || isna t)
      (combine (duplicated (map Data.text data)) (map Data.text data)).

(** [data[mask]]: the rows whose mask entry is true, in order. *)
Definition select_rows {A} (data : list A) (mask : list bool) : list A :=
  map fst (filter snd (combine data mask)).

Definition drop_duplicates (data : Data.frame) : Data.frame :=
  select_rows data (keep_mask data).

(** ** The platform *)

(** What the interpreter computes and the source only calls:
    [sys.getsizeof] of a text and of a group (a data frame). *)
Class Platform : Type := {
  getsizeof_text : option string -> Z;
  getsizeof_frame : Data.frame -> Z
}.

(** ** Grouping rows into bundles *)

(** Line 143: [n_texts / min(1000, max(1, bundle_size))], a true division. *)
Definition n_bundles (n_texts : nat) (bundle_size : Z) : Q :=
  (inject_Z (Z.of_nat n_texts) / inject_Z (Z.min 1000 (Z.max 1 bundle_size)))%Q.

(** Line 145: [numpy.tile(numpy.arange(n_bundles + 1), n_texts)[:n_texts]]. *)
Definition group_keys (n_texts : nat) (bundle_size : Z) : list nat :=
  firstn n_texts
    (Py.tile (Py.arange (n_bundles n_texts bundle_size + 1)%Q) n_texts).

(** The distinct keys in increasing order ([groupby] sorts its keys). *)
Fixpoint insert_key (k : nat) (l : list nat) : list nat :=
  match l with
  | [] => [k]
  | x :: l' =>
      if (k <? x)%nat then k :: l
      else if (k =? x)%nat then l
      else x :: insert_key k l'
  end.

Definition sorted_keys (keys : list nat) : list nat :=
  fold_right insert_key [] keys.

(** The rows of [data] whose key is [k], in the order of [data]. *)
Definition rows_with_key {A} (k : nat) (data : list A) (keys : list nat) : list A :=
  map fst (filter (fun p => (snd p =? k)%nat) (combine data keys)).

(** [data.groupby(keys, group_keys=False)] iterated: one [(key, group)] per
    distinct key, in increasing key order.  pandas refuses an array key
    whose length differs from the number of rows. *)
Definition groupby {A} (data : list A) (keys : list nat)
  : result (list (nat * list A)) :=
  check (length keys =? length data)%nat else GrouperAxisLength;
  Ok (map (fun k => (k, rows_with_key k data keys)) (sorted_keys keys)).

Section Bundles.

Context {platform : Platform}.

(** Lines 150-165: the loop over the texts of a group larger than the
    limit, with its three counters, then the closing
    [bundles.append(group[start:])]. *)
Fixpoint split_group (bundle_byte_limit : Z) (group : Data.frame)
    (txts : list (option string)) (start : nat) (current : Z) (end_ : nat)
    (bundles : list Data.frame) : result (list Data.frame) :=
  match txts with
  | [] => Ok (bundles ++ [Py.slice_from start group])
  | txt :: txts' =>
      let size := getsizeof_text txt in
      check negb (size >? bundle_byte_limit) else TextOverBundleLimit;
      if current + size >? bundle_byte_limit then
        split_group bundle_byte_limit group txts'
          (S end_) size (S end_)
          (bundles ++ [Py.slice start end_ group])
      else
        split_group bundle_byte_limit group txts'
          start (current + size) (S end_) bundles
  end.

(** Lines 147-167: the loop over the groups. *)
Fixpoint bundle_groups (bundle_byte_limit : Z)
    (groups : list (nat * Data.frame)) (bundles : list Data.frame)
  : result (list Data.frame) :=
  match groups with
  | [] => Ok bundles
  | (_, group) :: groups' =>
      if getsizeof_frame group >? bundle_byte_limit then
        do bundles' <- split_group bundle_byte_limit group
                         (map Data.text group) 0 0 0 bundles;
        bundle_groups bundle_byte_limit groups' bundles'
      else
        bundle_groups bundle_byte_limit groups' (bundles ++ [group])
  end.

End Bundles.

(** ** MD5 *)

(** [hashlib.md5(text.encode()).hexdigest()] (RFC 1321), a string being its
    sequence of bytes. *)
Module Md5.

Definition add32 (x y : Z) : Z := (x + y) mod 4294967296.

Definition not32 (x : Z) : Z := Z.lxor x 4294967295.

Definition rotl32 (x c : Z) : Z :=
  Z.lor (Z.shiftl x c mod 4294967296) (Z.shiftr x (32 - c)).

Definition shifts : list Z :=
  [7; 12; 17; 22; 7; 12; 17; 22; 7; 12; 17; 22; 7; 12; 17; 22;
   5; 9; 14; 20; 5; 9; 14; 20; 5; 9; 14; 20; 5; 9; 14; 20;
   4; 11; 16; 23; 4; 11; 16; 23; 4; 11; 16; 23; 4; 11; 16; 23;
   6; 10; 15; 21; 6; 10; 15; 21; 6; 10; 15; 21; 6; 10; 15; 21].

Definition sines : list Z :=
  [3614090360; 3905402710; 606105819; 3250441966;
   4118548399; 1200080426; 2821735955; 4249261313;
   1770035416; 2336552879; 4294925233; 2304563134;
   1804603682; 4254626195; 2792965006; 1236535329;
   4129170786; 3225465664; 643717713; 3921069994;
   3593408605; 38016083; 3634488961; 3889429448;
   568446438; 3275163606; 4107603335; 1163531501;
   2850285829; 4243563512; 1735328473; 2368359562;
   4294588738; 2272392833; 1839030562; 4259657740;
   2763975236; 1272893353; 4139469664; 3200236656;
   681279174; 3936430074; 3572445317; 76029189;
   3654602809; 3873151461; 530742520; 3299628645;
   4096336452; 1126891415; 2878612391; 4237533241;
   1700485571; 2399980690; 4293915773; 2240044497;
   1873313359; 4264355552; 2734768916; 1309151649;
   4149444226; 3174756917; 718787259; 3951481745].

Definition bytes_of (s : string) : list Z :=
  map (fun a => Z.of_nat (nat_of_ascii a)) (list_ascii_of_string s).

(** The [n] low bytes of [x], least significant first. *)
Definition le_bytes (n : nat) (x : Z) : list Z :=
  map (fun i => Z.land (Z.shiftr x (8 * Z.of_nat i)) 255) (seq 0 n).

Definition pad (msg : list Z) : list Z :=
  let len := Z.of_nat (length msg) in
  msg ++ [128] ++ repeat 0 (Z.to_nat ((55 - len) mod 64))
      ++ le_bytes 8 (8 * len).

Fixpoint le_word (bytes : list Z) : Z :=
  match bytes with
  | [] => 0
  | b :: bytes' => b + 256 * le_word bytes'
  end.

(** The first [n] groups of [size] elements. *)
Fixpoint groups_of {A} (size n : nat) (l : list A) : list (list A) :=
  match n with
  | O => []
  | S n' => firstn size l :: groups_of size n' (skipn size l)
  end.

Definition state : Type := Z * Z * Z * Z.

Definition step (M : list Z) (st : state) (i : nat) : state :=
  let '(A, B, C, D) := st in
  let '(F, g) :=
    if (i <? 16)%nat then
      (Z.lor (Z.land B C) (Z.land (not32 B) D), i)
    else if (i <? 32)%nat then
      (Z.lor (Z.land D B) (Z.land (not32 D) C), ((5 * i + 1) mod 16)%nat)
    else if (i <? 48)%nat then
      (Z.lxor B (Z.lxor C D), ((3 * i + 5) mod 16)%nat)
    else
      (Z.lxor C (Z.lor B (not32 D)), ((7 * i) mod 16)%nat) in
  let F' := add32 (add32 (add32 F A) (nth i sines 0)) (nth g M 0) in
  (D, add32 B (rotl32 F' (nth i shifts 0)), B, C).

Definition chunk (st : state) (bytes : list Z) : state :=
  let M := map le_word (groups_of 4 16 bytes) in
  let '(a0, b0, c0, d0) := st in
  let '(A, B, C, D) := fold_left (step M) (seq 0 64) st in
  (add32 a0 A, add32 b0 B, add32 c0 C, add32 d0 D).

Definition digest (s : string) : list Z :=
  let msg := pad (bytes_of s) in
  let '(a, b, c, d) :=
    fold_left chunk (groups_of 64 (length msg / 64) msg)
              (1732584193, 4023233417, 2562383102, 271733878) in
  le_bytes 4 a ++ le_bytes 4 b ++ le_bytes 4 c ++ le_bytes 4 d.

Definition hex_digit (x : Z) : ascii :=
  nth (Z.to_nat x) (list_ascii_of_string "0123456789abcdef") "0"%char.

Definition hexdigest (s : string) : string :=
  string_of_list_ascii
    (flat_map (fun b => [hex_digit (b / 16); hex_digit (b mod 16)]) (digest s)).

End Md5.

(** ** Request items *)

(** A Python dict with string keys and values, in insertion order. *)
Definition dict : Type := list (string * string).

Fixpoint dict_get (k : string) (d : dict) : option string :=
  match d with
  | [] => None
  | (k', v) :: d' => if String.eqb k k' then Some v else dict_get k d'
  end.

(** [d[k] = v]: an existing key keeps its place and takes the new value, a
    new key goes last. *)
Fixpoint dict_set (k v : string) (d : dict) : dict :=
  match d with
  | [] => [(k, v)]
  | (k', v') :: d' =>
      if String.eqb k k' then (k', v) :: d' else (k', v') :: dict_set k v d'
  end.

(** [{**d, **add}] *)
Definition dict_update (d add : dict) : dict :=
  fold_left (fun acc kv => dict_set (fst kv) (snd kv) acc) add d.

(** ** Result frames *)

Module Frame.

(** A data frame of results: column labels and rows of cells, a cell
    being [None] where pandas holds NaN. *)
Record t : Type :=
  { columns : list string; rows : list (list (option string)) }.

(** The cell of a row under the first column labelled [c]; NaN when the
    row has no such column. *)
Fixpoint cell (c : string) (cols : list string) (row : list (option string))
  : option string :=
  match cols, row with
  | c' :: cols', v :: row' => if String.eqb c c' then v else cell c cols' row'
  | _, _ => None
  end.

(** [df[c]] as a list of cells. *)
Definition column (c : string) (f : t) : list (option string) :=
  map (cell c (columns f)) (rows f).

(** The labels of [l] in order of first appearance. *)
Fixpoint unique_from (seen l : list string) : list string :=
  match l with
  | [] => []
  | c :: l' =>
      if existsb (String.eqb c) seen then unique_from seen l'
      else c :: unique_from (c :: seen) l'
  end.

(** The rows of [f] laid out under the labels [cols]. *)
Definition reindex (cols : list string) (f : t) : list (list (option string)) :=
  map (fun row => map (fun c => cell c (columns f) row) cols) (rows f).

(** [pandas.concat(frames, ignore_index=True, sort=False)] on frames: the
    union of the columns in order of first appearance, the rows of each
    frame in turn, NaN where a frame lacks a column. *)
Definition concat_frames (frames : list t) : t :=
  let cols := unique_from [] (List.concat (map columns frames)) in
  {| columns := cols; rows := List.concat (map (reindex cols) frames) |}.

(** The columns whose label satisfies [keep], by position. *)
Definition select_columns (keep : string -> bool) (f : t) : t :=
  {| columns := filter keep (columns f);
     rows := map (fun row =>
                    map snd (filter (fun p => keep (fst p))
                                    (combine (columns f) row)))
                 (rows f) |}.

(** [res.columns = [g(col) for col in res.columns]] *)
Definition rename_columns (g : string -> string) (f : t) : t :=
  {| columns := map g (columns f); rows := rows f |}.

End Frame.

(** [pandas.concat(res, ignore_index=True, sort=False)] on the list of what
    [_process] returned: [None] entries are dropped silently, unless the
    list is empty or holds nothing else, which raises. *)
Definition somes {A} (l : list (option A)) : list A :=
  flat_map (fun o => match o with Some a => [a] | None => [] end) l.

Definition pandas_concat (objs : list (option Frame.t)) : result Frame.t :=
  match objs with
  | [] => Raise NoObjectsToConcatenate
  | _ :: _ =>
      match somes objs with
      | [] => Raise AllObjectsNone
      | frames => Ok (Frame.concat_frames frames)
      end
  end.

(** ** Regular expressions *)

Module Re.

(** The fragment of [re] the two patterns of the source need. *)
Inductive pattern : Type :=
| Lit (s : string)          (* the characters of s, literally *)
| Alt (p q : pattern)       (* p|q *)
| Cat (p q : pattern)       (* pq *)
| EndOfString               (* $ *)
| PlusNot (c : ascii).      (* [^c]+ *)

Fixpoint strip_prefix (l s : string) : option string :=
  match l, s with
  | EmptyString, _ => Some s
  | String a l', String b s' =>
      if Ascii.eqb a b then strip_prefix l' s' else None
  | String _ _, EmptyString => None
  end.

(** What is left of [s] after one to as many characters as possible
    other than [c], the longest run first. *)
Fixpoint after_run_not (c : ascii) (s : string) : list string :=
  match s with
  | EmptyString => []
  | String a s' =>
      if Ascii.eqb a c then [] else after_run_not c s' ++ [s']
  end.

(** [$] without MULTILINE: at the end, or before a newline that ends the
    string. *)
Definition at_end (s : string) : bool :=
  match s with
  | EmptyString => true
  | String a EmptyString => Ascii.eqb a (ascii_of_nat 10)
  | _ => false
  end.

(** The ways [p] matches at the start of [s], each given by the rest of
    [s], in the order a backtracking matcher tries them. *)
Fixpoint residuals (p : pattern) (s : string) : list string :=
  match p with
  | Lit l => match strip_prefix l s with Some r => [r] | None => [] end
  | Alt p q => residuals p s ++ residuals q s
  | Cat p q => flat_map (residuals q) (residuals p s)
  | EndOfString => if at_end s then [s] else []
  | PlusNot c => after_run_not c s
  end.

(** [re.search("^" + p, s) is not None] *)
Definition search_at_start (p : pattern) (s : string) : bool :=
  match residuals p s with [] => false | _ :: _ => true end.

(** [re.sub("^" + p, repl, s)] with the empty replacement, for a [p] that
    matches no empty string. *)
Definition sub_at_start (p : pattern) (s : string) : string :=
  match residuals p s with [] => s | r :: _ => r end.

(** [(?:a|b|...)] for a non-empty list of alternatives. *)
Fixpoint alternatives (p : pattern) (ps : list pattern) : pattern :=
  match ps with
  | [] => p
  | q :: ps' => Alt p (alternatives q ps')
  end.

End Re.

(** ** The endpoint and the other effects *)

(** What [requests.post] returns: the status code, the body as text, and
    the frame [pandas.json_normalize(res.json()["results"])] evaluates to,
    [None] when that expression raises. *)
Record response : Type := {
  status_code : Z;
  body_text : string;
  results : option Frame.t
}.

(** The world a run acts on.  The endpoint answers the n-th bulk POST of
    the run according to [service]; [posts] records the bodies sent,
    [stdout] the lines printed, [slept] the seconds slept, [files] the
    files of the file system (a CSV file holds the frame written to it),
    and [api_status] is the status code the status check of the API gets. *)
Record world : Type := {
  service : nat -> list dict -> response;
  api_status : Z;
  posts : list (list dict);
  stdout : list string;
  slept : Z;
  files : list (string * Frame.t)
}.

Definition post (body : list dict) (w : world) : response * world :=
  (service w (length (posts w)) body,
   {| service := service w; api_status := api_status w;
      posts := posts w ++ [body]; stdout := stdout w; slept := slept w;
      files := files w |}).

Definition sleep (seconds : Z) (w : world) : world :=
  {| service := service w; api_status := api_status w; posts := posts w;
     stdout := stdout w; slept := slept w + seconds; files := files w |}.

Definition print (line : string) (w : world) : world :=
  {| service := service w; api_status := api_status w; posts := posts w;
     stdout := stdout w ++ [line]; slept := slept w; files := files w |}.

(** [res.to_csv(output, index=False)]: the file is created or replaced. *)
Definition to_csv (path : string) (f : Frame.t) (w : world) : world :=
  {| service := service w; api_status := api_status w; posts := posts w;
     stdout := stdout w; slept := slept w;
     files := (path, f) :: filter (fun pf => negb (String.eqb (fst pf) path))
                                  (files w) |}.

Definition read_file (path : string) (w : world) : option Frame.t :=
  match find (fun pf => String.eqb (fst pf) path) (files w) with
  | Some pf => Some (snd pf)
  | None => None
  end.

Definition isfile (path : string) (w : world) : bool :=
  match read_file path w with Some _ => true | None => false end.

(** The [ops] dict handed to [_process]: [retries] is the entry the
    function writes to, and the dict is shared by every call.  The entries
    url and auth, which address the endpoint, are left out. *)
Record ops_dict : Type := {
  retries : Z;
  add : dict
}.

Definition decrement_retries (ops : ops_dict) : ops_dict :=
  {| retries := retries ops - 1; add := add ops |}.

(** Lines 18-21: one item per text; [text.encode()] raises on a missing
    text. *)
Definition item (add : dict) (txt : option string) : result dict :=
  match txt with
  | Some s =>
      Ok (dict_update [("content", s); ("request_id", Md5.hexdigest s)] add)
  | None => Raise MissingTextEncode
  end.

Fixpoint body (add : dict) (txts : list (option string)) : result (list dict) :=
  match txts with
  | [] => Ok []
  | txt :: txts' =>
      do i <- item add txt;
      do b <- body add txts';
      Ok (i :: b)
  end.

(** Lines 17-31.  The value of the recursive call is not used: the
    function returns the [content] of its own first response. *)
Equations? _process (bundle : Data.frame) (ops : ops_dict) (w : world)
  : result (option Frame.t) * ops_dict * world
  by wf (Z.to_nat (retries ops)) lt :=
  _process bundle ops w with body (add ops) (map Data.text bundle) => {
    | Raise e := (Raise e, ops, w);
    | Ok b with (status_code (fst (post b w)) =? 200)%Z => {
        | true :=
            (match results (fst (post b w)) with
             | Some content => Ok (Some content)
             | None => Raise ResultsNotReadable
             end, ops, snd (post b w));
        | false with Z_gt_dec (retries ops) 0 => {
            | left _ :=
                let w1 := print (body_text (fst (post b w)))
                                (sleep 1 (snd (post b w))) in
                let r := _process bundle (decrement_retries ops) w1 in
                (match fst (fst r) with
                 | Ok _ => Ok None
                 | Raise e => Raise e
                 end, snd (fst r), snd r);
            | right _ := (Ok None, ops, snd (post b w)) } } }.
Proof. unfold decrement_retries; simpl. lia. Qed.

(** Line 186: [[_process(b, args) for b in bundles]], every call on the
    same [args]. *)
Fixpoint process_all (bundles : list Data.frame) (ops : ops_dict) (w : world)
  : result (list (option Frame.t)) * ops_dict * world :=
  match bundles with
  | [] => (Ok [], ops, w)
  | b :: bundles' =>
      let r := _process b ops w in
      match fst (fst r) with
      | Raise e => (Raise e, snd (fst r), snd r)
      | Ok content =>
          let rs := process_all bundles' (snd (fst r)) (snd r) in
          (match fst (fst rs) with
           | Ok contents => Ok (content :: contents)
           | Raise e => Raise e
           end, snd (fst rs), snd rs)
      end
  end.

(** ** Column post-processing *)

(** [frameworks: str | list]. *)
Inductive frameworks_arg : Type :=
| FwStr (s : string)
| FwList (l : list string).

(** An element of the list [select]: a string, or (after line 208 wrapped a
    list) a list of strings. *)
Inductive select_item : Type :=
| SelStr (s : string)
| SelList (l : list string).

(** Lines 205-209. *)
Definition resolve_frameworks (frameworks : frameworks_arg)
    (framework_prefix : option bool) : list select_item * option bool :=
  match frameworks with
  | FwStr s =>
      ([SelStr "request_id"; SelStr s],
       match framework_prefix with None => Some false | p => p end)
  | FwList l =>
      if (length l =? 1)%nat then
        ([SelStr "request_id"; SelList l],
         match framework_prefix with None => Some false | p => p end)
      else (SelStr "request_id" :: map SelStr l, framework_prefix)
  end.

(** ['|'.join(select)]: every item has to be a string. *)
Fixpoint joinable (select : list select_item) : result (list string) :=
  match select with
  | [] => Ok []
  | SelStr s :: select' => do names <- joinable select'; Ok (s :: names)
  | SelList _ :: _ => Raise JoinExpectedStr
  end.

(** The pattern of line 210 after its [^]: [(?:n1|n2|...)(?:$|\.)], the
    names read as literals.  Line 210 splices the names into the pattern as
    they are, so this is the pattern of the source for names made of
    letters, digits and underscores ([plain_name] below) and for those
    only: a name holding a character that is special in a regular
    expression makes another pattern, or none.  What is stated on the
    columns selected is stated for plain names. *)
Definition select_pattern (names : list string) : Re.pattern :=
  match names with
  | [] => Re.Cat (Re.Lit EmptyString) (Re.Alt Re.EndOfString (Re.Lit "."))
  | n :: names' =>
      Re.Cat (Re.alternatives (Re.Lit n) (map Re.Lit names'))
             (Re.Alt Re.EndOfString (Re.Lit "."))
  end.

(** The pattern of line 212 after its [^]: [[^.]+\.]. *)
Definition prefix_pattern : Re.pattern :=
  Re.Cat (Re.PlusNot ".") (Re.Lit ".").

Definition metadata_columns : list string :=
  ["response_id"; "language"; "version"; "error"; "custom"].

(** Lines 195-201: the labels of the list that are columns of [res] are
    dropped. *)
Definition drop_metadata (res : Frame.t) : Frame.t :=
  let labels :=
    filter (fun col => existsb (String.eqb col) (Frame.columns res))
           metadata_columns in
  Frame.select_columns (fun col => negb (existsb (String.eqb col) labels)) res.

(** Lines 202-213. *)
Definition select_frameworks (frameworks : option frameworks_arg)
    (framework_prefix : option bool) (res : Frame.t) : result Frame.t :=
  do selected <-
    match frameworks with
    | Some fw =>
        let '(select, framework_prefix') := resolve_frameworks fw framework_prefix in
        do names <- joinable select;
        Ok (Frame.select_columns (Re.search_at_start (select_pattern names)) res,
            framework_prefix')
    | None => Ok (res, framework_prefix)
    end;
  match snd selected with
  | Some false =>
      Ok (Frame.rename_columns (Re.sub_at_start prefix_pattern) (fst selected))
  | _ => Ok (fst selected)
  end.

(** ** The request *)

(** The arguments of [request], [text] being the list of texts (a single
    string is the list of that string); the credentials and the endpoint
    address are left out. *)
Record params : Type := {
  text : list (option string);
  output : option string;
  ids : option (list ident);
  api_args : option dict;
  frameworks : option frameworks_arg;
  framework_prefix : option bool;
  bundle_size : Z;
  bundle_byte_limit : Z;
  retry_limit : Z;
  overwrite : bool
}.

(** [DataFrame.ndim]: a data frame has two axes whatever it holds. *)
Definition ndim (data : Data.frame) : nat := 2.

(** [pandas.DataFrame({"text": text, "id": ids})] for lists of one length. *)
Definition DataFrame (text : list (option string)) (ids : list ident) : Data.frame :=
  map (fun ti => {| Data.text := fst ti; Data.id := snd ti |}) (combine text ids).

(** [numpy.arange(1, n_texts + 1)] *)
Definition default_ids (n_texts : nat) : list ident :=
  map (fun i => IdInt (Z.of_nat i)) (seq 1 n_texts).

Section Request.

Context {platform : Platform}.

(** Lines 130-134. *)
Definition resolve_ids (p : params) : result (list ident) :=
  let n_texts := length (text p) in
  match ids p with
  | None => Ok (default_ids n_texts)
  | Some l => check (length l =? n_texts)%nat else IdsLengthMismatch; Ok l
  end.

(** Line 140. *)
Definition deduplicated (p : params) (ids : list ident) : Data.frame :=
  drop_duplicates (DataFrame (text p) ids).

(** Lines 143-167, on the data of line 140. *)
Definition make_bundles (p : params) (data : Data.frame)
  : result (list Data.frame) :=
  let n_texts := length (text p) in
  do groups <- groupby data (group_keys n_texts (bundle_size p));
  bundle_groups (bundle_byte_limit p) groups [].

(** Lines 130-167: everything before the first bulk POST. *)
Definition prepare (p : params) : result (list Data.frame) :=
  do ids <- resolve_ids p;
  let data := deduplicated p ids in
  check negb (ndim data =? 0)%nat else NoValidTexts;
  make_bundles p data.

(** Lines 175-180. *)
Definition make_ops (p : params) : ops_dict :=
  {| retries := retry_limit p;
     add := match api_args p with None => [] | Some d => d end |}.

(** Lines 190-213, on the concatenated frame. *)
Definition finalize (p : params) (res : Frame.t) (w : world)
  : result Frame.t * world :=
  let w1 := match output p with
            | Some path => to_csv path res w
            | None => w
            end in
  (select_frameworks (frameworks p) (framework_prefix p) (drop_metadata res),
   w1).

(** [request], with the bundles processed one after the other (the branch
    of line 186) and [verbose] at its default [False]: the progress lines
    of lines 112-113, 137-138, 168-172, 191-192, 203-204 and 215-216 are
    not printed, and [stdout] gets what line 29 prints and nothing else. *)
Definition request (p : params) (w : world) : result Frame.t * world :=
  if match output p with
     | Some path => isfile path w && negb (overwrite p)
     | None => false
     end
  then (Raise OutputFileExists, w)
  else if negb (api_status w =? 200)%Z
  then (Raise (ApiStatusFailed (api_status w)), w)
  else
    match prepare p with
    | Raise e => (Raise e, w)
    | Ok bundles =>
        let r := process_all bundles (make_ops p) w in
        match fst (fst r) with
        | Raise e => (Raise e, snd r)
        | Ok contents =>
            match pandas_concat contents with
            | Raise e => (Raise e, snd r)
            | Ok res => finalize p res (snd r)
            end
        end
    end.

End Request.

(** ** Notions the statements use *)

(** The record at position [i] of [data] is kept by line 140. *)
Definition survives (data : Data.frame) (i : nat) : bool :=
  nth i (keep_mask data) false.

(** The rows of a frame next to their index labels; [pandas.DataFrame]
    labels the rows by position. *)
Definition indexed {A} (l : list A) : list (nat * A) :=
  combine (seq 0 (length l)) l.

(** Line 140 with the index of the frame: the boolean indexing leaves
    every row it keeps under the label it had.  The rows of this frame are
    those of [drop_duplicates]. *)
Definition drop_duplicates_indexed (data : Data.frame) : list (nat * Data.row) :=
  select_rows (indexed data) (keep_mask data).

(** The number of keys line 145 cycles through. *)
Definition n_groups (n_texts : nat) (bundle_size : Z) : nat :=
  length (Py.arange (n_bundles n_texts bundle_size + 1)%Q).

(** The records of [data] at the positions that leave the remainder [j] in
    the division by [k], in their order. *)
Definition rows_at_residue {A} (j k : nat) (data : list A) : list A :=
  map snd (filter (fun ir => (fst ir mod k =? j)%nat)
                  (combine (seq 0 (length data)) data)).

(** The frame cut by the remainders of the positions in the division by
    [k]: one list of records for each remainder that occurs, in increasing
    order of the remainders. *)
Definition residue_classes {A} (k : nat) (data : list A) : list (list A) :=
  map (fun j => rows_at_residue j k data) (seq 0 (Nat.min (length data) k)).

(** The sizes [sys.getsizeof] gives for the texts of a bundle, summed. *)
Definition text_sizes {platform : Platform} (b : Data.frame) : Z :=
  fold_right (fun r acc => getsizeof_text (Data.text r) + acc) 0 b.

(** What the bounds ask of a bundle: a number of records and a sum of text
    sizes. *)
Definition within_bounds {platform : Platform} (size_bound : nat) (limit : Z)
    (b : Data.frame) : Prop :=
  (length b <= size_bound)%nat /\ text_sizes b <= limit.

(** The md5 digest of the text of a record. *)
Definition content_key (r : Data.row) : option string :=
  option_map Md5.hexdigest (Data.text r).

(** An endpoint that scores every item: each POST is answered 200 with one
    result per item, in the order of the items, each result carrying the
    [request_id] of its item. *)
Definition scores_every_item (w : world) : Prop :=
  forall n b,
    status_code (service w n b) = 200%Z /\
    exists f, results (service w n b) = Some f /\
              Frame.column "request_id" f = map (dict_get "request_id") b.

(** A character that stands for itself wherever it is put in a regular
    expression: an ASCII letter, a digit or an underscore. *)
Definition word_char (a : ascii) : bool :=
  let n := nat_of_ascii a in
  ((48 <=? n) && (n <=? 57) || (65 <=? n) && (n <=? 90)
   || (97 <=? n) && (n <=? 122) || (n =? 95))%nat.

Fixpoint plain_name (s : string) : bool :=
  match s with
  | EmptyString => true
  | String a s' => word_char a && plain_name s'
  end.

(** The names a [frameworks] argument holds. *)
Definition framework_names (fw : frameworks_arg) : list string :=
  match fw with
  | FwStr s => [s]
  | FwList l => l
  end.

(** The frameworks asked for, if any, all have plain names. *)
Definition plain_frameworks (frameworks : option frameworks_arg) : bool :=
  match frameworks with
  | Some fw => forallb plain_name (framework_names fw)
  | None => true
  end.

(** [json.dumps], as [requests.post(json=body)] applies it to the body,
    for keys and values that are written as they are (no quote, backslash,
    control or non-ASCII character): the items between brackets, the
    entries of an item between braces, separated by a comma and a space. *)
Definition json_string (s : string) : string :=
  String (ascii_of_nat 34) (s ++ String (ascii_of_nat 34) EmptyString)%string.

Fixpoint json_join (l : list string) : string :=
  match l with
  | [] => EmptyString
  | [x] => x
  | x :: l' => (x ++ ", " ++ json_join l')%string
  end.

Definition json_item (i : dict) : string :=
  ("{" ++ json_join (map (fun kv => json_string (fst kv) ++ ": "
                                     ++ json_string (snd kv)) i) ++ "}")%string.

Definition json_body (b : list dict) : string :=
  ("[" ++ json_join (map json_item b) ++ "]")%string.

(** The number of bytes of the body a bundle is sent as. *)
Definition serialized_size (b : list dict) : Z :=
  Z.of_nat (String.length (json_body b)).

(** Whether line 211 finds [framework_prefix] false, so that the prefixes
    are stripped. *)
Definition strips_prefix (frameworks : option frameworks_arg)
    (framework_prefix : option bool) : bool :=
  match match frameworks with
        | Some fw => snd (resolve_frameworks fw framework_prefix)
        | None => framework_prefix
        end with
  | Some false => true
  | _ => false
  end.

(** ** A platform, endpoints and inputs to run the model on *)

(** Sizes in the manner of 64-bit CPython and pandas: an ASCII text takes 49
    bytes and one more per character, a missing text 16; a frame takes 16
    bytes and, for each row, its text and 24 bytes (the pointer to the text,
    the id and the index entry). *)
Definition sample_getsizeof_text (t : option string) : Z :=
  match t with
  | Some s => 49 + Z.of_nat (String.length s)
  | None => 16
  end.

Definition sample_platform : Platform :=
  {| getsizeof_text := sample_getsizeof_text;
     getsizeof_frame := fun g =>
       fold_right (fun r acc => sample_getsizeof_text (Data.text r) + 24 + acc)
                  16 g |}.

(** An endpoint that scores every item: one result per item, in the order
    of the items, each echoing the [request_id] of its item next to a
    score. *)
Definition echo_results (b : list dict) : Frame.t :=
  {| Frame.columns := ["response_id"; "request_id"; "summary.word_count"];
     Frame.rows :=
       map (fun i => [Some "r"; dict_get "request_id" i; Some "1"]) b |}.

Definition ok_response (b : list dict) : response :=
  {| status_code := 200; body_text := "ok"; results := Some (echo_results b) |}.

Definition error_response : response :=
  {| status_code := 500; body_text := "server error"; results := None |}.

(** A world at the start of a run: the API is up, nothing was posted or
    printed, no file exists. *)
Definition world_of (service : nat -> list dict -> response) : world :=
  {| service := service; api_status := 200; posts := []; stdout := [];
     slept := 0; files := [] |}.

Definition echo_world : world := world_of (fun _ b => ok_response b).

(** [request(text, bundle_size=..., cores=1)] with every other argument at
    its default. *)
Definition default_params (text : list (option string)) (bundle_size : Z) : params :=
  {| text := text; output := None; ids := None; api_args := None;
     frameworks := None; framework_prefix := None;
     bundle_size := bundle_size; bundle_byte_limit := 7500000;
     retry_limit := 50; overwrite := false |}.

Definition record (s : string) (n : Z) : Data.row :=
  {| Data.text := Some s; Data.id := IdInt n |}.

(** Texts with repetitions, empty texts and missing texts. *)
Definition sample_data : Data.frame :=
  DataFrame [Some "hello"; Some "hello"; Some EmptyString; Some EmptyString;
             None; None; Some "world"]
            (default_ids 7).

(** Four different texts, and the table the run on them, two to a bundle,
    returns from the scoring endpoint. *)
Definition four_texts : list (option string) :=
  [Some "a"; Some "b"; Some "c"; Some "d"].

Definition four_records : Data.frame :=
  DataFrame four_texts (default_ids 4).

Definition four_texts_table : Frame.t :=
  {| Frame.columns := ["request_id"; "summary.word_count"];
     Frame.rows :=
       [[Some "0cc175b9c0f1b6a831c399e269772661"; Some "1"];
        [Some "8277e0910d750195b448797616e091ad"; Some "1"];
        [Some "92eb5ffee6ae2fec3ad71c777531578f"; Some "1"];
        [Some "4a8a08f09d37b73795649038408b5f33"; Some "1"]] |}.

(** Two texts sent one per bundle, and three endpoints: one that fails the
    first POST it gets and scores every later one, one that fails the
    second POST of the run only, and one that never scores the text b. *)
Definition two_texts_params (retry_limit : Z) : params :=
  {| text := [Some "a"; Some "b"]; output := None; ids := None;
     api_args := None; frameworks := None; framework_prefix := None;
     bundle_size := 1; bundle_byte_limit := 7500000;
     retry_limit := retry_limit; overwrite := false |}.

Definition bundle_b : Data.frame := [record "b" 2].

Definition body_b : list dict :=
  [[("content", "b"); ("request_id", "92eb5ffee6ae2fec3ad71c777531578f")]].

Definition first_post_fails : world :=
  world_of (fun n b => if (n =? 0)%nat then error_response else ok_response b).

Definition second_post_fails : world :=
  world_of (fun n b => if (n =? 1)%nat then error_response else ok_response b).

Definition holds_content (s : string) (b : list dict) : bool :=
  existsb (fun i => match dict_get "content" i with
                    | Some c => String.eqb c s
                    | None => false
                    end) b.

Definition never_scores_b : world :=
  world_of (fun _ b =>
    if holds_content "b" b then error_response else ok_response b).

(** A text given twice next to a text of 69 bytes, under a limit of 60, and
    the same without the repetition. *)
Definition duplicate_and_oversized_params : params :=
  {| text := [Some "a"; Some "a"; Some "twenty characters!!!"]; output := None;
     ids := None; api_args := None; frameworks := None;
     framework_prefix := None;
     bundle_size := 1000; bundle_byte_limit := 60;
     retry_limit := 50; overwrite := false |}.

Definition oversized_params : params :=
  {| text := [Some "a"; Some "twenty characters!!!"]; output := None;
     ids := None; api_args := None; frameworks := None;
     framework_prefix := None;
     bundle_size := 1000; bundle_byte_limit := 60;
     retry_limit := 50; overwrite := false |}.

(** A request for the single framework X. *)
Definition framework_x_params (framework_prefix : option bool) : params :=
  {| text := [Some "a"]; output := None; ids := None; api_args := None;
     frameworks := Some (FwStr "X"); framework_prefix := framework_prefix;
     bundle_size := 1000; bundle_byte_limit := 7500000;
     retry_limit := 50; overwrite := false |}.

(** One text, sent with a request_id among the [api_args]. *)
Definition request_id_params : params :=
  {| text := [Some "a"]; output := None; ids := None;
     api_args := Some [("request_id", "x")];
     frameworks := None; framework_prefix := None;
     bundle_size := 1000; bundle_byte_limit := 7500000;
     retry_limit := 50; overwrite := false |}.

(** A request for the single framework X given as a list of one name. *)
Definition framework_list_params (framework_prefix : option bool) : params :=
  {| text := [Some "a"]; output := None; ids := None; api_args := None;
     frameworks := Some (FwList ["X"]); framework_prefix := framework_prefix;
     bundle_size := 1000; bundle_byte_limit := 7500000;
     retry_limit := 50; overwrite := false |}.

(** The table of four columns the single framework is selected from. *)
Definition two_frameworks_table (rows : list (list (option string))) : Frame.t :=
  {| Frame.columns := ["X.a"; "X.b"; "Y.c"; "request_id"]; Frame.rows := rows |}.

(** One text of 50 bytes under a limit of 60, and the body it is sent
    as. *)
Definition small_limit_params : params :=
  {| text := [Some "a"]; output := None; ids := None; api_args := None;
     frameworks := None; framework_prefix := None;
     bundle_size := 1000; bundle_byte_limit := 60;
     retry_limit := 50; overwrite := false |}.

Definition body_a : list dict :=
  [[("content", "a"); ("request_id", "0cc175b9c0f1b6a831c399e269772661")]].

(** A request that writes its results to a file and asks for the single
    framework X, and an endpoint whose results hold a language and, in the
    framework X, a score called error. *)
Definition output_params : params :=
  {| text := [Some "a"]; output := Some "scores.csv"; ids := None;
     api_args := None;
     frameworks := Some (FwStr "X"); framework_prefix := None;
     bundle_size := 1000; bundle_byte_limit := 7500000;
     retry_limit := 50; overwrite := false |}.

Definition language_world : world :=
  world_of (fun _ b =>
    {| status_code := 200; body_text := "ok";
       results := Some
         {| Frame.columns := ["request_id"; "language"; "X.error"];
            Frame.rows :=
              map (fun i => [dict_get "request_id" i; Some "en"; Some "0.5"]) b
         |} |}).

(** ** Notions the further properties use *)

(** An empty or missing text: what line 140 keeps whatever came before. *)
Definition blank (t : option string) : bool :=
  is_empty_text t || isna t.

(** Line 140 as a pass over the rows, with the texts met so far. *)
Fixpoint drop_seen (seen : list (option string)) (data : Data.frame)
  : Data.frame :=
  match data with
  | [] => []
  | r :: data' =>
      if negb (existsb (text_eqb (Data.text r)) seen) || blank (Data.text r)
      then r :: drop_seen (seen ++ [Data.text r]) data'
      else drop_seen (seen ++ [Data.text r]) data'
  end.

(** The texts of a frame that are neither empty nor missing. *)
Definition sendable_texts (data : Data.frame) : list (option string) :=
  filter (fun t => negb (blank t)) (map Data.text data).

Definition newline : string := String (ascii_of_nat 10) EmptyString.

(** The column [c] belongs to the name [m]: it is [m], or [m] and a final
    newline, or [m], a dot and anything. *)
Definition delimited (m c : string) : Prop :=
  c = m \/ c = (m ++ newline)%string \/
  exists rest, c = (m ++ String "." rest)%string.

Fixpoint has_char (a : ascii) (s : string) : bool :=
  match s with
  | EmptyString => false
  | String b s' => Ascii.eqb b a || has_char a s'
  end.

(** The rows of the frames the bundles brought back, one frame after the
    other. *)
Definition returned_rows (contents : list (option Frame.t))
  : list (list (option string)) :=
  concat (map Frame.rows (somes contents)).

(** Three texts of 59 bytes each under a limit of 100: the group of the
    first and the third is cut by the size loop. *)
Definition three_long_params : params :=
  {| text := [Some "aaaaaaaaaa"; Some "bbbbbbbbbb"; Some "cccccccccc"];
     output := None; ids := None; api_args := None; frameworks := None;
     framework_prefix := None;
     bundle_size := 1000; bundle_byte_limit := 100;
     retry_limit := 50; overwrite := false |}.

Definition three_long_records : Data.frame :=
  DataFrame (text three_long_params) (default_ids 3).

(** * Properties *)

Unset Implicit Arguments.
Local Open Scope nat_scope.

(** ** Deduplication *)

Lemma text_eqb_eq a b : text_eqb a b = true <-> a = b.
Proof.
  destruct a as [x|], b as [y|]; simpl; try (split; congruence).
  rewrite String.eqb_eq. split; congruence.
Qed.

Lemma duplicated_from_length l : forall seen,
  length (duplicated_from seen l) = length l.
Proof. induction l as [|t l IH]; intros seen; simpl; auto. Qed.

Lemma duplicated_from_nth l : forall seen i t,
  nth_error l i = Some t ->
  nth i (duplicated_from seen l) false
  = existsb (text_eqb t) (seen ++ firstn i l).
Proof.
  induction l as [|x l IH]; intros seen [|i] t H; simpl in *; try discriminate.
  - inversion H; subst. now rewrite app_nil_r.
  - rewrite (IH _ _ _ H), <- app_assoc. reflexivity.
Qed.

Lemma keep_mask_length data : length (keep_mask data) = length data.
Proof.
  unfold keep_mask, duplicated.
  rewrite length_map, length_combine, duplicated_from_length, length_map.
  apply Nat.min_id.
Qed.

Lemma survives_unfold data i r :
  nth_error data i = Some r ->
  survives data i
  = negb (existsb (text_eqb (Data.text r)) (firstn i (map Data.text data)))
    || is_empty_text (Data.text r) || isna (Data.text r).
Proof.
  intros H. unfold survives, keep_mask, duplicated.
  assert (Hi : i < length data) by (apply nth_error_Some; congruence).
  assert (Ht : nth_error (map Data.text data) i = Some (Data.text r))
    by (rewrite nth_error_map, H; reflexivity).
  set (f := fun '(dup, t) => negb dup || is_empty_text t || isna t).
  change false with (f (true, Some "x"%string)) at 1.
  rewrite map_nth, combine_nth
    by (now rewrite duplicated_from_length).
  rewrite (nth_indep _ true false)
    by (now rewrite duplicated_from_length, length_map).
  rewrite (duplicated_from_nth _ [] _ _ Ht). simpl.
  rewrite (nth_error_nth _ _ _ Ht). reflexivity.
Qed.

Lemma existsb_firstn_false (texts : list (option string)) i t :
  existsb (text_eqb t) (firstn i texts) = false <->
  forall j t', j < i -> nth_error texts j = Some t' -> t' <> t.
Proof.
  revert i. induction texts as [|x texts IH]; intros i.
  - rewrite firstn_nil. simpl. split; auto.
    intros _ [|j] t' _ H; discriminate.
  - destruct i as [|i]; simpl.
    + split; auto. intros _ j t' Hj. lia.
    + rewrite orb_false_iff, IH. split.
      * intros [Hx Hrest] [|j] t' Hj H; simpl in H.
        -- inversion H; subst. intros ->.
           assert (text_eqb t t = true) by now apply text_eqb_eq.
           congruence.
        -- apply (Hrest j); auto. lia.
      * intros Hall. split.
        -- destruct (text_eqb t x) eqn:E; auto.
           apply text_eqb_eq in E. subst.
           exfalso. apply (Hall 0 x); auto. lia.
        -- intros j t' Hj H. apply (Hall (S j)); auto. lia.
Qed.

(** The frame line 140 leaves is made of the records at the surviving
    positions, in their order. *)
Lemma select_rows_positions {A} (data : list A) : forall mask off,
  length mask = length data ->
  select_rows data mask
  = map snd (filter (fun ir => nth (fst ir - off) mask false)
                    (combine (seq off (length data)) data)).
Proof.
  unfold select_rows.
  induction data as [|x data IH]; intros [|b mask] off Hlen;
    simpl in *; try discriminate; auto.
  rewrite Nat.sub_diag.
  assert (Htail :
    filter (fun ir => nth (fst ir - off) (b :: mask) false)
           (combine (seq (S off) (length data)) data)
    = filter (fun ir => nth (fst ir - S off) mask false)
             (combine (seq (S off) (length data)) data)).
  { apply filter_ext_in. intros [j y] Hin.
    apply in_combine_l, in_seq in Hin. simpl.
    replace (j - off) with (S (j - S off)) by lia. reflexivity. }
  simpl in Htail. rewrite Htail.
  destruct b; simpl; rewrite (IH mask (S off)) by lia; reflexivity.
Qed.

Lemma drop_duplicates_survivors data :
  drop_duplicates data
  = map snd (filter (fun ir => survives data (fst ir))
                    (combine (seq 0 (length data)) data)).
Proof.
  unfold drop_duplicates.
  rewrite (select_rows_positions data (keep_mask data) 0)
    by apply keep_mask_length.
  f_equal. apply filter_ext. intros [j y]. simpl.
  now rewrite Nat.sub_0_r.
Qed.

(** Line 140 with the index: the labelled rows kept are those whose label
    the mask is true at. *)
Lemma select_rows_indexed {A} (data : list A) : forall mask off,
  length mask = length data ->
  select_rows (combine (seq off (length data)) data) mask
  = filter (fun ir => nth (fst ir - off) mask false)
           (combine (seq off (length data)) data).
Proof.
  unfold select_rows.
  induction data as [|x data IH]; intros [|b mask] off Hlen;
    simpl in *; try discriminate; auto.
  rewrite Nat.sub_diag.
  assert (Htail :
    filter (fun ir => nth (fst ir - off) (b :: mask) false)
           (combine (seq (S off) (length data)) data)
    = filter (fun ir => nth (fst ir - S off) mask false)
             (combine (seq (S off) (length data)) data)).
  { apply filter_ext_in. intros [j y] Hin.
    apply in_combine_l, in_seq in Hin. simpl.
    replace (j - off) with (S (j - S off)) by lia. reflexivity. }
  simpl in Htail. rewrite Htail.
  destruct b; simpl; rewrite (IH mask (S off)) by lia; reflexivity.
Qed.

Lemma drop_duplicates_indexed_survivors data :
  drop_duplicates_indexed data
  = filter (fun ir => survives data (fst ir)) (indexed data).
Proof.
  unfold drop_duplicates_indexed, indexed.
  rewrite (select_rows_indexed data (keep_mask data) 0)
    by apply keep_mask_length.
  apply filter_ext. intros [j y]. simpl. unfold survives.
  now rewrite Nat.sub_0_r.
Qed.

Lemma in_indexed {A} (l : list A) i x :
  In (i, x) (indexed l) <-> nth_error l i = Some x.
Proof.
  unfold indexed.
  assert (H : forall off j, In (j, x) (combine (seq off (length l)) l) <->
                            off <= j /\ nth_error l (j - off) = Some x).
  { clear. induction l as [|y l IH]; intros off j; simpl.
    - split; [tauto|]. intros [_ H]. destruct (j - off); discriminate.
    - rewrite IH. split.
      + intros [H|[Hle H]].
        * inversion H; subst. rewrite Nat.sub_diag. auto.
        * split; [lia|]. replace (j - off) with (S (j - S off)) by lia.
          exact H.
      + intros [Hle H]. destruct (j - off) as [|m] eqn:E.
        * left. inversion H. f_equal. lia.
        * right. split; [lia|]. replace (j - S off) with m by lia. exact H. }
  rewrite (H 0), Nat.sub_0_r. intuition lia.
Qed.

Lemma indexed_labels {A} (l : list A) : map fst (indexed l) = seq 0 (length l).
Proof.
  unfold indexed. generalize 0 as off.
  induction l as [|x l IH]; intros off; simpl; [reflexivity|].
  now rewrite IH.
Qed.

Lemma NoDup_map_fst_filter {A B} (f : A * B -> bool) (l : list (A * B)) :
  NoDup (map fst l) -> NoDup (map fst (filter f l)).
Proof.
  induction l as [|x l IH]; simpl; intros H; [constructor|].
  inversion H as [|? ? Hx Hl]; subst.
  destruct (f x); simpl; [|now apply IH].
  constructor; [|now apply IH].
  intros Hin. apply Hx. apply in_map_iff in Hin.
  destruct Hin as [y [Hy Hin]]. apply filter_In in Hin.
  apply in_map_iff. exists y. tauto.
Qed.

(** C8: the frame line 140 produces is made of the rows it keeps, each
    under the label it had and no label twice, and the record at a position
    of the input is among them if and only if its text is empty, missing,
    or occurs at no earlier position of the input; in particular a record
    whose text is empty or missing is always there, under its own label. *)
Theorem survives_deduplication_iff (data : Data.frame) (i : nat) (r : Data.row) :
  nth_error data i = Some r ->
  map snd (drop_duplicates_indexed data) = drop_duplicates data /\
  NoDup (map fst (drop_duplicates_indexed data)) /\
  (In (i, r) (drop_duplicates_indexed data) <->
     Data.text r = Some EmptyString \/ Data.text r = None \/
     (forall j r', j < i -> nth_error data j = Some r' ->
                   Data.text r' <> Data.text r))
  /\ (Data.text r = Some EmptyString \/ Data.text r = None ->
      In (i, r) (drop_duplicates_indexed data) /\ In r (drop_duplicates data)).
Proof.
  intros H.
  assert (Hrows : map snd (drop_duplicates_indexed data) = drop_duplicates data).
  { rewrite drop_duplicates_indexed_survivors, drop_duplicates_survivors.
    reflexivity. }
  assert (Hin : In (i, r) (drop_duplicates_indexed data) <->
                survives data i = true).
  { rewrite drop_duplicates_indexed_survivors, filter_In, in_indexed. simpl.
    tauto. }
  assert (Hfirst :
    existsb (text_eqb (Data.text r)) (firstn i (map Data.text data)) = false <->
    forall j r', j < i -> nth_error data j = Some r' ->
                 Data.text r' <> Data.text r).
  { rewrite existsb_firstn_false. split.
    - intros Hall j r' Hj Hr'. apply (Hall j); auto.
      rewrite nth_error_map, Hr'. reflexivity.
    - intros Hall j t' Hj Ht'. rewrite nth_error_map in Ht'.
      destruct (nth_error data j) as [r'|] eqn:E; simpl in Ht'; try discriminate.
      inversion Ht'; subst. apply (Hall j); auto. }
  assert (Hempty : is_empty_text (Data.text r) = true <->
                   Data.text r = Some EmptyString).
  { destruct (Data.text r) as [s|]; simpl.
    - rewrite String.eqb_eq. split; congruence.
    - split; discriminate. }
  assert (Hna : isna (Data.text r) = true <-> Data.text r = None).
  { destruct (Data.text r); simpl; split; congruence. }
  rewrite Hin, (survives_unfold _ _ _ H).
  split; [exact Hrows|]. split.
  { rewrite drop_duplicates_indexed_survivors.
    apply NoDup_map_fst_filter. rewrite indexed_labels. apply seq_NoDup. }
  split.
  - rewrite !orb_true_iff, negb_true_iff, Hfirst, Hempty, Hna. tauto.
  - intros Hblank.
    assert (Hs : negb (existsb (text_eqb (Data.text r))
                         (firstn i (map Data.text data)))
                 || is_empty_text (Data.text r) || isna (Data.text r) = true)
      by (rewrite !orb_true_iff, Hempty, Hna; tauto).
    split; [exact Hs|].
    rewrite <- Hrows. apply in_map_iff. exists (i, r). split; [reflexivity|].
    apply Hin. now rewrite (survives_unfold _ _ _ H).
Qed.

Lemma survives_deduplication_iff_witness :
  In (3, {| Data.text := Some EmptyString; Data.id := IdInt 4 |})
     (drop_duplicates_indexed sample_data) /\
  In {| Data.text := Some EmptyString; Data.id := IdInt 4 |}
     (drop_duplicates sample_data).
Proof.
  apply (survives_deduplication_iff sample_data 3
           {| Data.text := Some EmptyString; Data.id := IdInt 4 |} eq_refl).
  left; reflexivity.
Defined.

(** ** Column post-processing *)

Lemma select_columns_columns keep f :
  Frame.columns (Frame.select_columns keep f) = filter keep (Frame.columns f).
Proof. reflexivity. Qed.

Lemma select_columns_rows_length keep f :
  length (Frame.rows (Frame.select_columns keep f)) = length (Frame.rows f).
Proof. unfold Frame.select_columns; simpl. apply length_map. Qed.

Lemma existsb_eqb_In (c : string) (l : list string) :
  existsb (String.eqb c) l = true <-> In c l.
Proof.
  rewrite existsb_exists. split.
  - intros [x [Hin Heq]]. apply String.eqb_eq in Heq. now subst.
  - intros Hin. exists c. split; auto. apply String.eqb_refl.
Qed.

Lemma drop_metadata_columns res c :
  In c (Frame.columns (drop_metadata res)) <->
  In c (Frame.columns res) /\ ~ In c metadata_columns.
Proof.
  unfold drop_metadata. rewrite select_columns_columns, filter_In.
  rewrite negb_true_iff, <- not_true_iff_false, existsb_eqb_In, filter_In.
  rewrite existsb_eqb_In. tauto.
Qed.

Lemma drop_metadata_rows_length res :
  length (Frame.rows (drop_metadata res)) = length (Frame.rows res).
Proof. apply select_columns_rows_length. Qed.

(** What [select_frameworks] returns is a selection of the columns of its
    argument, renamed by the prefix stripping when that applies. *)
Lemma select_frameworks_inv fw pre f t :
  select_frameworks fw pre f = Ok t ->
  exists keep,
    t = (if strips_prefix fw pre
         then Frame.rename_columns (Re.sub_at_start prefix_pattern)
         else fun x => x)
          (match fw with
           | Some _ => Frame.select_columns keep f
           | None => f
           end).
Proof.
  unfold select_frameworks, strips_prefix.
  destruct fw as [fw|]; simpl.
  - destruct (resolve_frameworks fw pre) as [select pre'] eqn:E.
    destruct (joinable select) as [names|e]; simpl; try discriminate.
    intros H. exists (Re.search_at_start (select_pattern names)).
    destruct pre' as [[|]|]; inversion H; reflexivity.
  - intros H. exists (fun _ => true).
    destruct pre as [[|]|]; inversion H; reflexivity.
Qed.


Lemma select_frameworks_rows_length fw pre f t :
  select_frameworks fw pre f = Ok t ->
  length (Frame.rows t) = length (Frame.rows f).
Proof.
  intros H. destruct (select_frameworks_inv _ _ _ _ H) as [keep ->].
  destruct (strips_prefix fw pre), fw; simpl; auto using length_map.
Qed.

(** The framework X given as a string, on a table with the columns X.a, X.b,
    Y.c and request_id: the columns returned are X.a, X.b and request_id
    when the prefix is kept, and the framework columns are renamed a and b
    when the prefix is stripped, which is what happens when
    [framework_prefix] is left at its default. *)
Lemma single_framework_columns (p : params) (w : world)
    (rows : list (list (option string))) :
  frameworks p = Some (FwStr "X") ->
  let res := {| Frame.columns := ["X.a"; "X.b"; "Y.c"; "request_id"]%string;
                Frame.rows := rows |} in
  (framework_prefix p = Some true ->
   exists t, fst (finalize p res w) = Ok t /\
             Frame.columns t = ["X.a"; "X.b"; "request_id"]%string) /\
  (framework_prefix p = None \/ framework_prefix p = Some false ->
   exists t, fst (finalize p res w) = Ok t /\
             Frame.columns t = ["a"; "b"; "request_id"]%string).
Proof.
  intros Hfw res. unfold finalize. rewrite Hfw. split.
  - intros ->. eexists. split; reflexivity.
  - intros [-> | ->]; eexists; split; reflexivity.
Qed.

Lemma single_framework_columns_witness :
  exists t, fst (finalize (framework_x_params None)
                   {| Frame.columns := ["X.a"; "X.b"; "Y.c"; "request_id"]%string;
                      Frame.rows := [[Some "1"; Some "2"; Some "3"; Some "k"]]%string |}
                   echo_world) = Ok t /\
            Frame.columns t = ["a"; "b"; "request_id"]%string.
Proof.
  apply (single_framework_columns (framework_x_params None) echo_world
           [[Some "1"; Some "2"; Some "3"; Some "k"]]%string eq_refl).
  left. reflexivity.
Defined.

(** A list holding the one framework is wrapped a second time by line 208
    and cannot be joined into the pattern. *)
Lemma one_framework_in_a_list_raises pre f :
  select_frameworks (Some (FwList ["X"%string])) pre f = Raise JoinExpectedStr.
Proof. reflexivity. Qed.

(** C9 (failing input): the single framework X asked for as the list of one
    name, on the table with the columns X.a, X.b, Y.c and request_id.  Line
    205 takes the list for one framework and defaults the prefix to false,
    line 208 wraps the list a second time, and the join of line 210 finds a
    list where it expects a string: no table is returned, whatever
    [framework_prefix] is, and a run that asks for the framework this way
    ends with that error after its texts were scored.  The same framework
    given as a string selects the columns. *)
Theorem single_framework_in_list_raises (pre : option bool)
    (rows : list (list (option string))) (w : world) :
  resolve_frameworks (FwList ["X"%string]) pre
  = ([SelStr "request_id"; SelList ["X"%string]],
     match pre with None => Some false | _ => pre end) /\
  joinable [SelStr "request_id"; SelList ["X"%string]] = Raise JoinExpectedStr /\
  fst (finalize (framework_list_params pre) (two_frameworks_table rows) w)
  = Raise JoinExpectedStr /\
  fst (request (platform := sample_platform) (framework_list_params pre)
         echo_world)
  = Raise JoinExpectedStr /\
  length (posts (snd (request (platform := sample_platform)
                        (framework_list_params pre) echo_world))) = 1 /\
  option_map Frame.columns
    (match fst (finalize (framework_x_params (Some true))
                  (two_frameworks_table rows) w) with
     | Ok t => Some t
     | Raise _ => None
     end)
  = Some ["X.a"; "X.b"; "request_id"]%string.
Proof.
  split; [reflexivity|]. split; [reflexivity|]. split; [reflexivity|].
  split; [destruct pre as [[|]|]; vm_compute; reflexivity|].
  split; [destruct pre as [[|]|]; vm_compute; reflexivity|].
  reflexivity.
Qed.

(** ** Processing a bundle *)

Lemma _process_eq bundle ops w :
  _process bundle ops w =
  match body (add ops) (map Data.text bundle) with
  | Raise e => (Raise e, ops, w)
  | Ok b =>
      let res := fst (post b w) in
      let w0 := snd (post b w) in
      if (status_code res =? 200)%Z then
        (match results res with
         | Some content => Ok (Some content)
         | None => Raise ResultsNotReadable
         end, ops, w0)
      else if Z_gt_dec (retries ops) 0 then
        let r := _process bundle (decrement_retries ops)
                          (print (body_text res) (sleep 1 w0)) in
        (match fst (fst r) with
         | Ok _ => Ok None
         | Raise e => Raise e
         end, snd (fst r), snd r)
      else (Ok None, ops, w0)
  end.
Proof.
  funelim (_process bundle ops w); clear Heqcall;
    repeat match goal with
           | H : _ = _ |- _ => rewrite H; clear H
           end; reflexivity.
Qed.

(** A first response with status 200 is the only way to a table. *)
Lemma _process_scored bundle ops w b content :
  body (add ops) (map Data.text bundle) = Ok b ->
  status_code (fst (post b w)) = 200%Z ->
  results (fst (post b w)) = Some content ->
  _process bundle ops w = (Ok (Some content), ops, snd (post b w)).
Proof.
  intros Hb Hs Hr. rewrite _process_eq, Hb. cbv zeta.
  rewrite Hs, Hr. reflexivity.
Qed.

(** X19: whatever the retries bring, a bundle whose first response is not
    a 200 returns no table. *)
Lemma _process_first_response_decides bundle ops w b content :
  body (add ops) (map Data.text bundle) = Ok b ->
  status_code (fst (post b w)) <> 200%Z ->
  fst (fst (_process bundle ops w)) <> Ok (Some content).
Proof.
  intros Hb Hs. rewrite _process_eq, Hb. cbv zeta.
  apply Z.eqb_neq in Hs. rewrite Hs.
  destruct (Z_gt_dec (retries ops) 0); simpl; try discriminate.
  destruct (fst (fst (_process _ _ _))); discriminate.
Qed.





(** C2 (failing input): the first POST of the bundle is answered 500, the
    retry is answered 200 with the scores, and [_process] returns [None];
    in a run the rows of that bundle are missing from the table. *)
Theorem retried_bundle_returns_none :
  status_code (service first_post_fails 1 body_b) = 200%Z /\
  _process bundle_b (make_ops (two_texts_params 50)) first_post_fails
  = (Ok None,
     decrement_retries (make_ops (two_texts_params 50)),
     {| service := service first_post_fails; api_status := 200%Z;
        posts := [body_b; body_b]; stdout := ["server error"]%string;
        slept := 1%Z; files := [] |}) /\
  fst (request (platform := sample_platform) (two_texts_params 50)
         second_post_fails)
  = Ok {| Frame.columns := ["request_id"; "summary.word_count"]%string;
          Frame.rows := [[Some "0cc175b9c0f1b6a831c399e269772661";
                          Some "1"]]%string |}.
Proof.
  split; [reflexivity|]. split; vm_compute; reflexivity.
Qed.

(** ** The run *)

Lemma request_ok_inv {platform : Platform} p w t w' :
  request p w = (Ok t, w') ->
  exists bundles contents res,
    prepare p = Ok bundles /\
    fst (fst (process_all bundles (make_ops p) w)) = Ok contents /\
    pandas_concat contents = Ok res /\
    finalize p res (snd (process_all bundles (make_ops p) w)) = (Ok t, w').
Proof.
  unfold request.
  destruct (match output p with
            | Some path => isfile path w && negb (overwrite p)
            | None => false
            end); [discriminate|].
  destruct (negb (api_status w =? 200)%Z); [discriminate|].
  destruct (prepare p) as [bundles|e]; [|discriminate].
  destruct (fst (fst (process_all bundles (make_ops p) w))) as [contents|e] eqn:E;
    [|discriminate].
  destruct (pandas_concat contents) as [res|e] eqn:C; [|discriminate].
  intros H. exists bundles, contents, res. auto.
Qed.

(** C6 (failing input): with no text at all the guard of line 141 does not
    fire; the preparation ends with no bundle, nothing is posted, and the
    run fails in the concatenation of an empty list. *)
Theorem empty_input_fails_in_concat (platform : Platform) (bundle_size : Z) :
  ndim (deduplicated (default_params [] bundle_size) []) = 2 /\
  prepare (default_params [] bundle_size) = Ok [] /\
  request (default_params [] bundle_size) echo_world
  = (Raise NoObjectsToConcatenate, echo_world).
Proof.
  split; [reflexivity|].
  assert (H : prepare (default_params [] bundle_size) = Ok []) by reflexivity.
  split; [exact H|].
  unfold request. rewrite H. reflexivity.
Qed.

(** The guard of line 141 never fires: [prepare] has no way to
    [NoValidTexts]. *)
Lemma split_group_raises {platform : Platform} limit group txts :
  forall start current end_ bundles e,
  split_group limit group txts start current end_ bundles = Raise e ->
  e = TextOverBundleLimit.
Proof.
  induction txts as [|txt txts IH]; intros start current end_ bundles e; simpl.
  - discriminate.
  - destruct (negb (getsizeof_text txt >? limit)%Z); [|congruence].
    destruct (current + getsizeof_text txt >? limit)%Z; apply IH.
Qed.

Lemma bundle_groups_raises {platform : Platform} limit groups :
  forall bundles e,
  bundle_groups limit groups bundles = Raise e -> e = TextOverBundleLimit.
Proof.
  induction groups as [|[k group] groups IH]; intros bundles e; simpl.
  - discriminate.
  - destruct (getsizeof_frame group >? limit)%Z; [|apply IH].
    destruct (split_group limit group (map Data.text group) 0 0 0 bundles)
      as [bundles'|e'] eqn:E; simpl.
    + apply IH.
    + intros H. inversion H; subst. apply (split_group_raises _ _ _ _ _ _ _ _ E).
Qed.

Lemma prepare_never_no_valid_texts {platform : Platform} p :
  prepare p <> Raise NoValidTexts.
Proof.
  unfold prepare, resolve_ids, make_bundles, groupby.
  destruct (ids p) as [l|]; simpl.
  - destruct (length l =? length (text p)); simpl; [|discriminate].
    destruct (length (group_keys _ _) =? _); simpl; [|discriminate].
    intros H. apply bundle_groups_raises in H. discriminate.
  - destruct (length (group_keys _ _) =? _); simpl; [|discriminate].
    intros H. apply bundle_groups_raises in H. discriminate.
Qed.

(** C7 (failing input): a text given twice next to a text over the limit;
    the frame of line 140 has two rows, the key array of line 145 three, and
    the run ends in [groupby] before the sizes are looked at.  Without the
    repeated text the oversized text is reported. *)
Theorem duplicate_hides_oversized_text :
  (sample_getsizeof_text (Some "twenty characters!!!"%string) > 60)%Z /\
  length (deduplicated duplicate_and_oversized_params (default_ids 3)) = 2 /\
  length (group_keys 3 1000) = 3 /\
  request (platform := sample_platform) duplicate_and_oversized_params echo_world
  = (Raise GrouperAxisLength, echo_world) /\
  request (platform := sample_platform) oversized_params echo_world
  = (Raise TextOverBundleLimit, echo_world).
Proof.
  split; [reflexivity|]. split; [reflexivity|]. split; [reflexivity|].
  split; vm_compute; reflexivity.
Qed.

(** ** The file written and the table returned *)


Lemma unique_from_In c l : forall seen,
  In c (Frame.unique_from seen l) <-> In c l /\ ~ In c seen.
Proof.
  induction l as [|x l IH]; intros seen; simpl.
  - tauto.
  - destruct (existsb (String.eqb x) seen) eqn:E.
    + apply existsb_eqb_In in E. rewrite IH. split.
      * tauto.
      * intros [[<-|H] Hn]; tauto.
    + assert (Hx : ~ In x seen).
      { intros H. apply existsb_eqb_In in H. congruence. }
      simpl. rewrite IH. simpl. split.
      * intros [<-|[H Hn]]; [tauto|]. split; [tauto|]. intros Hs. apply Hn. auto.
      * intros [[<-|H] Hn]; [tauto|].
        destruct (string_dec x c) as [<-|Hne]; [tauto|]. right. split; auto.
        intros [?|?]; tauto.
Qed.

Lemma concat_frames_columns frames c :
  In c (Frame.columns (Frame.concat_frames frames)) <->
  exists f, In f frames /\ In c (Frame.columns f).
Proof.
  unfold Frame.concat_frames; simpl.
  rewrite unique_from_In, in_concat. split.
  - intros [[cols [Hcols Hc]] _]. apply in_map_iff in Hcols.
    destruct Hcols as [f [<- Hf]]. exists f. auto.
  - intros [f [Hf Hc]]. split; [|tauto].
    exists (Frame.columns f). split; auto. now apply in_map.
Qed.


Lemma pandas_concat_ok contents res :
  pandas_concat contents = Ok res ->
  res = Frame.concat_frames (somes contents) /\ somes contents <> [].
Proof.
  unfold pandas_concat. destruct contents as [|o contents]; [discriminate|].
  destruct (somes (o :: contents)) as [|f frames]; [discriminate|].
  intros H. inversion H. split; [reflexivity|discriminate].
Qed.



(** The names of the table returned are those left by line 213: a score
    X.error of the framework X comes back under the name error once the
    prefix is stripped, while the file has the columns as they came.  That
    column is the score, not the metadata column of the results. *)
Lemma returned_table_holds_error_column :
  output output_params = Some "scores.csv"%string /\
  (exists t w',
     request (platform := sample_platform) output_params language_world
     = (Ok t, w') /\
     Frame.columns t = ["request_id"; "error"]%string /\
     option_map Frame.columns (read_file "scores.csv" w')
     = Some ["request_id"; "language"; "X.error"]%string) /\
  In "error"%string metadata_columns.
Proof.
  split; [reflexivity|]. split.
  - eexists. eexists. split; [vm_compute; reflexivity|].
    split; reflexivity.
  - simpl. tauto.
Qed.

(** ** The keys of the groups *)

Lemma n_groups_bounds n bs :
  1 <= n_groups n bs /\
  n <= Z.to_nat (Z.min 1000 (Z.max 1 bs)) * (n_groups n bs - 1).
Proof.
  unfold n_groups, Py.arange. rewrite length_seq.
  set (B := Z.min 1000 (Z.max 1 bs)).
  set (K := Qceiling (n_bundles n bs + 1)).
  assert (HB : (1 <= B)%Z) by (unfold B; lia).
  pose proof (Qle_ceiling (n_bundles n bs + 1)) as H. fold K in H.
  unfold n_bundles in H. fold B in H.
  destruct B as [|B'|B'] eqn:EB; try lia.
  unfold Qle, Qplus, Qdiv, Qmult, Qinv, inject_Z in H. simpl in H.
  rewrite Pos.mul_1_r in H. split; nia.
Qed.

Lemma map_mod_shift_from k n : forall s,
  map (fun i => i mod k) (seq (s + k) n) = map (fun i => i mod k) (seq s n).
Proof.
  induction n as [|n IH]; intros s; simpl; [reflexivity|].
  f_equal.
  - rewrite <- (Nat.mul_1_l k) at 1. apply Nat.Div0.mod_add.
  - apply (IH (S s)).
Qed.

Lemma map_mod_shift k n :
  map (fun i => i mod k) (seq k n) = map (fun i => i mod k) (seq 0 n).
Proof. apply (map_mod_shift_from k n 0). Qed.

Lemma map_mod_small k n :
  n <= k -> map (fun i => i mod k) (seq 0 n) = seq 0 n.
Proof.
  intros H. rewrite <- (map_id (seq 0 n)) at 2.
  apply map_ext_in. intros i Hi. apply in_seq in Hi.
  apply Nat.mod_small. lia.
Qed.

Lemma firstn_seq_le n : forall s k,
  n <= k -> firstn n (seq s k) = seq s n.
Proof.
  induction n as [|n IH]; intros s [|k] H; simpl; try reflexivity; try lia.
  f_equal. apply IH. lia.
Qed.

(** Line 145 hands the position [i] the key [i mod k], [k] being the number
    of keys. *)
Lemma tile_firstn k : forall m n,
  1 <= k -> n <= m * k ->
  firstn n (Py.tile (seq 0 k) m) = map (fun i => i mod k) (seq 0 n).
Proof.
  unfold Py.tile.
  induction m as [|m IH]; intros n Hk Hn; simpl in *.
  - assert (n = 0) by lia. subst. reflexivity.
  - rewrite firstn_app, length_seq.
    destruct (Nat.le_gt_cases n k) as [Hle|Hgt].
    + replace (n - k) with 0 by lia. rewrite firstn_O, app_nil_r.
      rewrite map_mod_small by assumption.
      now rewrite firstn_seq_le.
    + rewrite firstn_all2 by (rewrite length_seq; lia).
      rewrite IH by lia.
      replace n with (k + (n - k)) at 2 by lia.
      rewrite seq_app, map_app, (map_mod_small k k) by lia.
      simpl. now rewrite map_mod_shift.
Qed.

Lemma group_keys_mod n bs :
  group_keys n bs = map (fun i => i mod n_groups n bs) (seq 0 n).
Proof.
  unfold group_keys, n_groups, Py.arange.
  rewrite length_seq.
  pose proof (n_groups_bounds n bs) as [Hk _].
  unfold n_groups, Py.arange in Hk. rewrite length_seq in Hk.
  apply tile_firstn; [assumption | nia].
Qed.

Lemma group_keys_length n bs : length (group_keys n bs) = n.
Proof. now rewrite group_keys_mod, length_map, length_seq. Qed.

(** No key is handed out more often than the bundle size allows. *)
Lemma count_occ_mod j k : forall q n,
  1 <= k -> n <= q * k ->
  count_occ Nat.eq_dec (map (fun i => i mod k) (seq 0 n)) j <= q.
Proof.
  induction q as [|q IH]; intros n Hk Hn; simpl in Hn.
  - assert (n = 0) by lia. subst. simpl. lia.
  - destruct (Nat.le_gt_cases n k) as [Hle|Hgt].
    + rewrite map_mod_small by assumption.
      pose proof (proj1 (NoDup_count_occ Nat.eq_dec (seq 0 n)) (seq_NoDup n 0) j).
      lia.
    + replace n with (k + (n - k)) by lia.
      rewrite seq_app, map_app, count_occ_app, (map_mod_small k k) by lia.
      simpl. rewrite map_mod_shift.
      pose proof (proj1 (NoDup_count_occ Nat.eq_dec (seq 0 k)) (seq_NoDup k 0) j).
      pose proof (IH (n - k) Hk). simpl in *. lia.
Qed.

Lemma rows_with_key_length {A} j (data : list A) : forall keys,
  length (rows_with_key j data keys) <= count_occ Nat.eq_dec keys j.
Proof.
  unfold rows_with_key.
  induction data as [|x data IH]; intros [|k keys]; simpl; try lia.
  specialize (IH keys).
  destruct (Nat.eqb_spec k j) as [->|Hne]; simpl.
  - destruct (Nat.eq_dec j j); [lia|congruence].
  - destruct (Nat.eq_dec k j); [congruence|lia].
Qed.

Lemma group_length_bound {A} j (data : list A) n bs :
  length (rows_with_key j data (group_keys n bs))
  <= Z.to_nat (Z.min 1000 (Z.max 1 bs)).
Proof.
  etransitivity; [apply rows_with_key_length|].
  rewrite group_keys_mod.
  pose proof (n_groups_bounds n bs) as [Hk Hn].
  apply count_occ_mod; [assumption | nia].
Qed.

(** ** Groups *)

Lemma insert_key_In k x l : In x (insert_key k l) <-> x = k \/ In x l.
Proof.
  induction l as [|y l IH]; simpl.
  - intuition congruence.
  - destruct (Nat.ltb_spec k y); simpl; [intuition congruence|].
    destruct (Nat.eqb_spec k y) as [->|Hne]; simpl.
    + intuition congruence.
    + rewrite IH. intuition congruence.
Qed.

Lemma insert_key_sorted k l :
  StronglySorted lt l -> StronglySorted lt (insert_key k l).
Proof.
  induction 1 as [|y l Hs IH Hall]; simpl.
  - repeat constructor.
  - destruct (Nat.ltb_spec k y).
    + constructor; [now constructor|].
      constructor; [assumption|].
      eapply Forall_impl; [|exact Hall]. intros; lia.
    + destruct (Nat.eqb_spec k y) as [->|Hne]; [now constructor|].
      constructor; [assumption|].
      apply Forall_forall. intros x Hx. apply insert_key_In in Hx.
      destruct Hx as [->|Hx]; [lia|].
      rewrite Forall_forall in Hall. now apply Hall.
Qed.

Lemma sorted_keys_sorted keys : StronglySorted lt (sorted_keys keys).
Proof.
  induction keys as [|k keys IH]; simpl; [constructor|].
  now apply insert_key_sorted.
Qed.

Lemma sorted_keys_In keys k : In k (sorted_keys keys) <-> In k keys.
Proof.
  induction keys as [|x keys IH]; simpl; [tauto|].
  rewrite insert_key_In, IH. intuition congruence.
Qed.

Lemma sorted_keys_NoDup keys : NoDup (sorted_keys keys).
Proof.
  induction (sorted_keys_sorted keys) as [|y l Hs IH Hall]; constructor; auto.
  intros Hin. rewrite Forall_forall in Hall. specialize (Hall _ Hin). lia.
Qed.

Lemma rows_with_key_cons {A} k (x : A) data k0 keys :
  rows_with_key k (x :: data) (k0 :: keys)
  = if k0 =? k then x :: rows_with_key k data keys
    else rows_with_key k data keys.
Proof.
  unfold rows_with_key; simpl. now destruct (k0 =? k).
Qed.

Lemma rows_with_key_nil {A} k (keys : list nat) :
  rows_with_key k (@nil A) keys = [].
Proof. reflexivity. Qed.

Lemma concat_map_nil {A B} (ks : list B) :
  concat (map (fun _ => @nil A) ks) = [].
Proof. induction ks; simpl; auto. Qed.

(** Putting one more row under the key [k0] adds that row to the groups
    laid end to end. *)
Lemma concat_groups_cons {A} (x : A) k0 (g : nat -> list A) ks :
  NoDup ks -> In k0 ks ->
  Permutation
    (concat (map (fun k => if k0 =? k then x :: g k else g k) ks))
    (x :: concat (map g ks)).
Proof.
  induction 1 as [|k ks Hnotin Hnodup IH]; intros Hin; [destruct Hin|].
  simpl. destruct (Nat.eqb_spec k0 k) as [->|Hne].
  - simpl. apply perm_skip. apply Permutation_app_head.
    assert (E : map (fun k' => if k =? k' then x :: g k' else g k') ks
                = map g ks).
    { apply map_ext_in. intros k' Hk'.
      destruct (Nat.eqb_spec k k') as [->|_]; [contradiction|reflexivity]. }
    now rewrite E.
  - destruct Hin as [->|Hin]; [congruence|].
    rewrite (IH Hin). apply Permutation_sym, Permutation_middle.
Qed.

(** The groups of a [groupby], laid end to end, hold the rows of the frame,
    each once. *)
Lemma groups_permutation {A} ks : NoDup ks ->
  forall (data : list A) keys,
  length keys = length data ->
  (forall k, In k keys -> In k ks) ->
  Permutation (concat (map (fun k => rows_with_key k data keys) ks)) data.
Proof.
  intros Hnodup.
  induction data as [|x data IH]; intros [|k0 keys] Hlen Hks;
    simpl in Hlen; try discriminate.
  - unfold rows_with_key; simpl. now rewrite concat_map_nil.
  - assert (E : map (fun k => rows_with_key k (x :: data) (k0 :: keys)) ks
                = map (fun k => if k0 =? k
                                then x :: rows_with_key k data keys
                                else rows_with_key k data keys) ks).
    { apply map_ext. intros k. apply rows_with_key_cons. }
    rewrite E, concat_groups_cons; auto; [|apply Hks; now left].
    apply perm_skip. apply IH; [lia|].
    intros k Hk. apply Hks. now right.
Qed.

Lemma rows_with_key_nonempty {A} k (data : list A) : forall keys,
  length keys = length data -> In k keys -> rows_with_key k data keys <> [].
Proof.
  induction data as [|x data IH]; intros [|k0 keys] Hlen Hin;
    simpl in *; try discriminate; try contradiction.
  rewrite rows_with_key_cons.
  destruct (Nat.eqb_spec k0 k) as [->|Hne]; [discriminate|].
  destruct Hin as [->|Hin]; [congruence|]. apply IH; [lia|assumption].
Qed.

(** A group is made of the rows at the positions of one residue. *)
Lemma rows_with_key_positions {A} (f : nat -> nat) j (data : list A) : forall s,
  rows_with_key j data (map f (seq s (length data)))
  = map snd (filter (fun ir => f (fst ir) =? j)
                    (combine (seq s (length data)) data)).
Proof.
  induction data as [|x data IH]; intros s; simpl; [reflexivity|].
  rewrite rows_with_key_cons, (IH (S s)).
  destruct (f s =? j); reflexivity.
Qed.

Lemma groupby_ok {A} (data : list A) keys groups :
  groupby data keys = Ok groups ->
  length keys = length data /\
  groups = map (fun k => (k, rows_with_key k data keys)) (sorted_keys keys).
Proof.
  unfold groupby. destruct (Nat.eqb_spec (length keys) (length data)).
  - intros H. inversion H. auto.
  - discriminate.
Qed.

(** ** Bundles *)

Section BundleFacts.

Context {platform : Platform}.

Lemma text_sizes_app (a b : Data.frame) :
  text_sizes (a ++ b) = (text_sizes a + text_sizes b)%Z.
Proof.
  unfold text_sizes. induction a as [|r a IH]; simpl; [reflexivity|].
  rewrite IH. lia.
Qed.

(** While no group is over the limit, the bundles are the groups. *)
Lemma bundle_groups_within_limit limit groups : forall bundles,
  (forall g, In g groups -> (getsizeof_frame (snd g) <= limit)%Z) ->
  bundle_groups limit groups bundles = Ok (bundles ++ map snd groups).
Proof.
  induction groups as [|[k group] groups IH]; intros bundles H; simpl.
  - now rewrite app_nil_r.
  - destruct (Z.gtb_spec (getsizeof_frame group) limit) as [Hgt|_].
    + specialize (H (k, group) (or_introl eq_refl)). simpl in H. lia.
    + rewrite IH by (intros g Hg; apply H; now right).
      now rewrite <- app_assoc.
Qed.

Lemma slice_processed {A} (pre rest : list A) start :
  start <= length pre ->
  Py.slice start (length pre) (pre ++ rest) = skipn start pre.
Proof.
  intros H. unfold Py.slice.
  rewrite skipn_app. replace (start - length pre) with 0 by lia.
  rewrite skipn_O, firstn_app, length_skipn, Nat.sub_diag, firstn_O, app_nil_r.
  apply firstn_all2. rewrite length_skipn. lia.
Qed.

Section Bounds.

Variable limit : Z.
Variable size_bound : nat.

Hypothesis getsizeof_text_nonneg : forall t, (0 <= getsizeof_text t)%Z.

(** The loop of lines 150-165, entered with [pre] gone through and
    [rest] to come: [current] is at least the sizes of the texts from
    [start] on, and within the limit once a text has been seen. *)
Lemma split_group_bounded group : forall rest pre start current bundles out,
  group = pre ++ rest ->
  group <> [] ->
  length group <= size_bound ->
  start <= length pre ->
  (text_sizes (skipn start pre) <= current)%Z ->
  (pre = [] \/ (current <= limit)%Z) ->
  Forall (within_bounds size_bound limit) bundles ->
  split_group limit group (map Data.text rest) start current (length pre)
              bundles = Ok out ->
  Forall (within_bounds size_bound limit) out.
Proof.
  induction rest as [|x rest IH];
    intros pre start current bundles out Hg Hne Hlen Hstart Hsum Hcur Hall;
    simpl.
  - intros H. inversion H; subst out. rewrite app_nil_r in Hg. subst pre.
    apply Forall_app. split; [assumption|]. constructor; [|constructor].
    unfold Py.slice_from. split.
    + rewrite length_skipn. lia.
    + destruct Hcur as [->|Hcur]; [congruence | lia].
  - destruct (Z.gtb_spec (getsizeof_text (Data.text x)) limit) as [|Hsize];
      simpl; [discriminate|].
    assert (Hg' : group = (pre ++ [x]) ++ rest)
      by (now rewrite <- app_assoc).
    assert (Hl' : S (length pre) = length (pre ++ [x]))
      by (rewrite length_app; simpl; lia).
    pose proof (getsizeof_text_nonneg (Data.text x)) as Hx.
    destruct (Z.gtb_spec (current + getsizeof_text (Data.text x)) limit)
      as [Hover|Hfits]; rewrite Hl'; apply IH; auto; try lia.
    + rewrite skipn_all. unfold text_sizes; simpl. lia.
    + apply Forall_app. split; [assumption|]. constructor; [|constructor].
      rewrite Hg, slice_processed by assumption. split.
      * rewrite length_skipn. subst group. rewrite length_app in Hlen. lia.
      * destruct Hcur as [->|Hcur]; [|lia].
        rewrite skipn_nil. unfold text_sizes; simpl. lia.
    + rewrite skipn_app, text_sizes_app.
      replace (start - length pre) with 0 by lia.
      unfold text_sizes at 2; simpl. lia.
Qed.

Hypothesis getsizeof_frame_texts :
  forall g, (text_sizes g <= getsizeof_frame g)%Z.

Lemma bundle_groups_bounded groups : forall bundles out,
  Forall (fun g => snd g <> [] /\ length (snd g) <= size_bound) groups ->
  Forall (within_bounds size_bound limit) bundles ->
  bundle_groups limit groups bundles = Ok out ->
  Forall (within_bounds size_bound limit) out.
Proof.
  induction groups as [|[k group] groups IH]; intros bundles out Hgs Hall;
    simpl.
  - intros H. now inversion H; subst.
  - inversion Hgs as [|? ? [Hne Hlen] Hgs']; subst. simpl in Hne, Hlen.
    destruct (Z.gtb_spec (getsizeof_frame group) limit) as [Hgt|Hle].
    + destruct (split_group limit group (map Data.text group) 0 0 0 bundles)
        as [bundles'|e] eqn:E; simpl; [|discriminate].
      apply IH; [assumption|].
      apply (split_group_bounded group group [] 0 0%Z bundles bundles');
        auto; simpl; lia.
    + apply IH; [assumption|].
      apply Forall_app. split; [assumption|].
      constructor; [|constructor]. split; [assumption|].
      specialize (getsizeof_frame_texts group). lia.
Qed.

End Bounds.

End BundleFacts.

Lemma rows_with_key_residue {A} j n bs (data : list A) :
  length data = n ->
  rows_with_key j data (group_keys n bs)
  = rows_at_residue j (n_groups n bs) data.
Proof.
  intros <-. rewrite group_keys_mod. unfold rows_at_residue.
  apply (rows_with_key_positions (fun i => i mod n_groups (length data) bs)).
Qed.

Lemma make_bundles_groups {platform : Platform} p data bundles :
  make_bundles p data = Ok bundles ->
  length data = length (text p) /\
  bundle_groups (bundle_byte_limit p)
    (map (fun j => (j, rows_with_key j data
                         (group_keys (length (text p)) (bundle_size p))))
         (sorted_keys (group_keys (length (text p)) (bundle_size p)))) []
  = Ok bundles.
Proof.
  unfold make_bundles. cbv zeta.
  set (keys := group_keys (length (text p)) (bundle_size p)).
  intros H.
  destruct (groupby data keys) as [groups|e] eqn:E; simpl in H; [|discriminate].
  apply groupby_ok in E. destruct E as [Hlen ->].
  unfold keys in Hlen. rewrite group_keys_length in Hlen. auto.
Qed.

Lemma group_key_lt n bs j :
  In j (sorted_keys (group_keys n bs)) -> j < n_groups n bs.
Proof.
  rewrite sorted_keys_In, group_keys_mod, in_map_iff.
  intros [i [<- _]]. apply Nat.mod_upper_bound.
  pose proof (n_groups_bounds n bs). lia.
Qed.

(** C4 (as amended): when no group is larger than the byte limit, the
    bundles are the groups of line 144, one for each residue [j] of the
    division of the position by the number of keys, in increasing order of
    [j]; a bundle holds the records at the positions with its residue, in
    input order, and the bundles laid end to end hold every record of the
    frame exactly once (a permutation of the frame, not the frame itself). *)
Theorem bundles_partition_by_residue {platform : Platform}
    (p : params) (data : Data.frame) (bundles : list Data.frame) :
  let k := n_groups (length (text p)) (bundle_size p) in
  (forall j, j < k ->
     (getsizeof_frame (rows_at_residue j k data) <= bundle_byte_limit p)%Z) ->
  make_bundles p data = Ok bundles ->
  Permutation (concat bundles) data /\
  exists residues,
    StronglySorted lt residues /\
    Forall (fun j => j < k) residues /\
    bundles = map (fun j => rows_at_residue j k data) residues.
Proof.
  intros k Hsize H.
  destruct (make_bundles_groups _ _ _ H) as [Hlen Hb].
  set (keys := group_keys (length (text p)) (bundle_size p)) in *.
  assert (Hres : forall j, rows_with_key j data keys = rows_at_residue j k data)
    by (intros j; now apply rows_with_key_residue).
  rewrite bundle_groups_within_limit in Hb.
  - simpl in Hb. inversion Hb as [Hbundles]. rewrite map_map. simpl.
    split.
    + apply groups_permutation.
      * apply sorted_keys_NoDup.
      * unfold keys. now rewrite group_keys_length.
      * intros j. apply sorted_keys_In.
    + exists (sorted_keys keys). split; [apply sorted_keys_sorted|]. split.
      * apply Forall_forall. intros j. apply group_key_lt.
      * apply map_ext. exact Hres.
  - intros g Hg. apply in_map_iff in Hg. destruct Hg as [j [<- Hj]]. simpl.
    rewrite Hres. apply Hsize. now apply group_key_lt.
Qed.

Lemma bundles_partition_by_residue_witness :
  Permutation
    [record "a" 1; record "d" 4; record "b" 2; record "c" 3]%string
    four_records /\
  exists residues,
    StronglySorted lt residues /\
    Forall (fun j => j < 3) residues /\
    [[record "a" 1; record "d" 4]; [record "b" 2]; [record "c" 3]]%string
    = map (fun j => rows_at_residue j 3 four_records) residues.
Proof.
  apply (bundles_partition_by_residue (platform := sample_platform)
           (default_params four_texts 2) four_records
           [[record "a" 1; record "d" 4]; [record "b" 2]; [record "c" 3]]%string).
  - intros [|[|[|j]]] Hj; vm_compute; discriminate.
  - reflexivity.
Defined.

(** C4 (counterexample): four texts, two to a bundle; the first bundle
    holds the first and the fourth record, and the bundles laid end to end
    are not the records in input order. *)
Lemma bundles_not_contiguous :
  drop_duplicates four_records = four_records /\
  make_bundles (platform := sample_platform) (default_params four_texts 2)
    four_records
  = Ok [[record "a" 1; record "d" 4]; [record "b" 2]; [record "c" 3]]%string /\
  concat [[record "a" 1; record "d" 4]; [record "b" 2]; [record "c" 3]]%string
  <> four_records.
Proof.
  split; [reflexivity|]. split; [reflexivity|]. discriminate.
Qed.

Lemma sample_getsizeof_text_nonneg t : (0 <= sample_getsizeof_text t)%Z.
Proof. unfold sample_getsizeof_text. destruct t; lia. Qed.

Lemma sample_getsizeof_frame_texts g :
  (text_sizes (platform := sample_platform) g
   <= getsizeof_frame (Platform := sample_platform) g)%Z.
Proof.
  unfold text_sizes. cbn [getsizeof_frame getsizeof_text sample_platform].
  induction g as [|r g IH]; cbn [fold_right]; lia.
Qed.

(** C5 (as amended): with sizes that are not negative and a group at least
    as large as its texts together, every bundle holds at most
    [min(1000, max(1, bundle_size))] records, and the sizes [sys.getsizeof]
    gives for its texts sum to at most [bundle_byte_limit]. *)
Theorem bundles_within_bounds {platform : Platform}
    (p : params) (data : Data.frame) (bundles : list Data.frame) :
  (forall t, (0 <= getsizeof_text t)%Z) ->
  (forall g, (text_sizes g <= getsizeof_frame g)%Z) ->
  make_bundles p data = Ok bundles ->
  Forall (fun b =>
            (Z.of_nat (length b) <= Z.min 1000 (Z.max 1 (bundle_size p)))%Z /\
            (text_sizes b <= bundle_byte_limit p)%Z) bundles.
Proof.
  intros Hnonneg Hframe H.
  destruct (make_bundles_groups _ _ _ H) as [Hlen Hb].
  set (keys := group_keys (length (text p)) (bundle_size p)) in *.
  apply (bundle_groups_bounded (bundle_byte_limit p)
           (Z.to_nat (Z.min 1000 (Z.max 1 (bundle_size p)))) Hnonneg Hframe)
    in Hb.
  - eapply Forall_impl; [|exact Hb]. simpl. intros b [H1 H2]. split; [lia|assumption].
  - apply Forall_forall. intros g Hg.
    apply in_map_iff in Hg. destruct Hg as [j [<- Hj]]. simpl. split.
    + apply rows_with_key_nonempty.
      * unfold keys. now rewrite group_keys_length.
      * now apply sorted_keys_In.
    + apply group_length_bound.
  - constructor.
Qed.

Lemma bundles_within_bounds_witness :
  Forall (fun b =>
            (Z.of_nat (length b) <= 2)%Z /\
            (text_sizes (platform := sample_platform) b <= 7500000)%Z)
    [[record "a" 1; record "d" 4]; [record "b" 2]; [record "c" 3]]%string.
Proof.
  apply (bundles_within_bounds (platform := sample_platform)
           (default_params four_texts 2) four_records
           [[record "a" 1; record "d" 4]; [record "b" 2]; [record "c" 3]]%string
           sample_getsizeof_text_nonneg sample_getsizeof_frame_texts eq_refl).
Defined.

(** C5 (counterexample): with [bundle_size=0] the one text makes a bundle of
    one record, more than the bundle size given; and under a byte limit of
    60 the text a, of 50 bytes, makes a bundle that is sent as a body of 68
    bytes and that, as a frame, takes 90 bytes: only the sizes of the texts
    are held against the limit. *)
Lemma bundle_exceeds_stated_bounds :
  (make_bundles (platform := sample_platform) (default_params [Some "a"] 0)
     (DataFrame [Some "a"] (default_ids 1))
   = Ok [[record "a" 1]]%string /\
   ~ (Z.of_nat (length [record "a" 1])
      <= bundle_size (default_params [Some "a"] 0))%Z) /\
  (prepare (platform := sample_platform) small_limit_params
   = Ok [[record "a" 1]]%string /\
   posts (snd (request (platform := sample_platform) small_limit_params
                 echo_world)) = [body_a] /\
   json_body body_a
   = ("[{" ++ json_string "content" ++ ": " ++ json_string "a" ++ ", "
      ++ json_string "request_id" ++ ": "
      ++ json_string "0cc175b9c0f1b6a831c399e269772661" ++ "}]")%string /\
   serialized_size body_a = 68%Z /\
   getsizeof_frame (Platform := sample_platform) [record "a" 1] = 90%Z /\
   text_sizes (platform := sample_platform) [record "a" 1] = 50%Z /\
   ~ (serialized_size body_a <= bundle_byte_limit small_limit_params)%Z /\
   ~ (getsizeof_frame (Platform := sample_platform) [record "a" 1]
      <= bundle_byte_limit small_limit_params)%Z).
Proof.
  split.
  - split; [reflexivity|]. simpl. lia.
  - split; [reflexivity|]. split; [vm_compute; reflexivity|].
    split; [reflexivity|]. split; [reflexivity|].
    split; [reflexivity|]. split; [reflexivity|].
    split; vm_compute; intros H; apply H; reflexivity.
Qed.

(** ** The rows of the table returned *)

Lemma dict_get_set_other k k' v d :
  k <> k' -> dict_get k (dict_set k' v d) = dict_get k d.
Proof.
  intros Hne. induction d as [|[k0 v0] d IH]; simpl.
  - destruct (String.eqb_spec k k'); [contradiction|reflexivity].
  - destruct (String.eqb_spec k' k0) as [->|Hk0]; simpl.
    + destruct (String.eqb_spec k k0); [contradiction|reflexivity].
    + now rewrite IH.
Qed.

Lemma dict_get_update k add : forall d,
  dict_get k add = None -> dict_get k (dict_update d add) = dict_get k d.
Proof.
  unfold dict_update.
  induction add as [|[k' v] add IH]; intros d H; simpl in *; [reflexivity|].
  destruct (String.eqb_spec k k') as [->|Hne]; [discriminate|].
  rewrite IH by assumption. now apply dict_get_set_other.
Qed.

Lemma body_request_ids add txts : forall b,
  dict_get "request_id" add = None ->
  body add txts = Ok b ->
  map (dict_get "request_id") b = map (option_map Md5.hexdigest) txts.
Proof.
  induction txts as [|txt txts IH]; intros b Hadd; simpl.
  - intros H. now inversion H.
  - destruct txt as [s|]; simpl; [|discriminate].
    destruct (body add txts) as [b'|e]; simpl; [|discriminate].
    intros H. inversion H; subst. simpl.
    rewrite dict_get_update by assumption. simpl.
    now rewrite (IH b').
Qed.

Lemma cell_absent c : forall cols row, ~ In c cols -> Frame.cell c cols row = None.
Proof.
  induction cols as [|c' cols IH]; intros [|v row] H; simpl; auto.
  destruct (String.eqb_spec c c') as [->|_].
  - exfalso. apply H. now left.
  - apply IH. intros Hin. apply H. now right.
Qed.

Lemma cell_reindexed c fcols row : forall cols,
  (forall c', In c' fcols -> In c' cols \/ c' <> c) ->
  Frame.cell c cols (map (fun c' => Frame.cell c' fcols row) cols)
  = if in_dec string_dec c cols then Frame.cell c fcols row else None.
Proof.
  induction cols as [|c0 cols IH]; intros H; simpl; [reflexivity|].
  destruct (String.eqb_spec c c0) as [->|Hne].
  - destruct (string_dec c0 c0); [reflexivity|congruence].
  - destruct (string_dec c0 c) as [E|Hc0]; [congruence|].
    rewrite IH.
    + destruct (in_dec string_dec c cols); reflexivity.
    + intros c' Hc'.
      destruct (H c' Hc') as [[E|Hin]|Hn];
        [right; congruence | left; assumption | right; assumption].
Qed.

Lemma column_reindex c cols f :
  (forall c', In c' (Frame.columns f) -> In c' cols) ->
  map (Frame.cell c cols) (Frame.reindex cols f) = Frame.column c f.
Proof.
  intros Hsub. unfold Frame.reindex, Frame.column. rewrite map_map.
  apply map_ext. intros row.
  rewrite cell_reindexed by (intros c' Hc'; left; now apply Hsub).
  destruct (in_dec string_dec c cols) as [|Hn]; [reflexivity|].
  symmetry. apply cell_absent. intros Hin. apply Hn. now apply Hsub.
Qed.

(** A column of the concatenated frame is that column of the frames, one
    after the other. *)
Lemma column_concat_frames c frames :
  Frame.column c (Frame.concat_frames frames)
  = concat (map (Frame.column c) frames).
Proof.
  unfold Frame.column at 1. simpl.
  set (cols := Frame.unique_from [] (concat (map Frame.columns frames))).
  assert (Hcols : forall f, In f frames ->
            forall c', In c' (Frame.columns f) -> In c' cols).
  { intros f Hf c' Hc'.
    change cols with (Frame.columns (Frame.concat_frames frames)).
    apply concat_frames_columns. eauto. }
  rewrite concat_map, map_map. f_equal.
  apply map_ext_in. intros f Hf. apply column_reindex. now apply Hcols.
Qed.

Lemma column_select_columns c keep f :
  keep c = true ->
  Frame.column c (Frame.select_columns keep f) = Frame.column c f.
Proof.
  intros Hc. unfold Frame.column, Frame.select_columns; simpl.
  rewrite map_map. apply map_ext. intros row.
  generalize (Frame.columns f) as cols. revert row.
  intros row cols. revert row.
  induction cols as [|c' cols IH]; intros [|v row]; simpl; auto.
  - destruct (keep c'); [reflexivity|]. now destruct (filter keep cols).
  - destruct (keep c') eqn:E; simpl.
    + destruct (String.eqb c c'); auto.
    + destruct (String.eqb_spec c c') as [->|_]; [congruence|auto].
Qed.

Lemma column_length c f : length (Frame.column c f) = length (Frame.rows f).
Proof. apply length_map. Qed.

Lemma residuals_alternatives p ps s :
  exists others,
    Re.residuals (Re.alternatives p ps) s = Re.residuals p s ++ others.
Proof.
  destruct ps as [|q ps]; simpl.
  - exists []. now rewrite app_nil_r.
  - eexists. reflexivity.
Qed.

Lemma search_request_id names :
  Re.search_at_start (select_pattern ("request_id"%string :: names))
                     "request_id"%string = true.
Proof.
  unfold Re.search_at_start, select_pattern.
  cbn [Re.residuals].
  destruct (residuals_alternatives (Re.Lit "request_id") (map Re.Lit names)
              "request_id") as [others ->].
  reflexivity.
Qed.

Lemma joinable_request_id select names :
  joinable (SelStr "request_id" :: select) = Ok names ->
  exists names', names = "request_id"%string :: names'.
Proof.
  simpl. destruct (joinable select) as [names'|e]; simpl; [|discriminate].
  intros H. inversion H. eauto.
Qed.

Lemma resolve_frameworks_request_id fw pre :
  exists select, fst (resolve_frameworks fw pre) = SelStr "request_id" :: select.
Proof.
  destruct fw as [s|l]; simpl; [eauto|].
  destruct (length l =? 1); simpl; eauto.
Qed.

(** While the prefixes are kept, the request_id column comes through the
    selection of the frameworks as it is. *)
Lemma select_frameworks_request_id fw pre f t :
  select_frameworks fw pre f = Ok t ->
  strips_prefix fw pre = false ->
  Frame.column "request_id" t = Frame.column "request_id" f.
Proof.
  unfold select_frameworks, strips_prefix.
  destruct fw as [fw|]; simpl.
  - destruct (resolve_frameworks_request_id fw pre) as [select Hsel].
    destruct (resolve_frameworks fw pre) as [select' pre'].
    simpl in Hsel. subst select'. simpl snd.
    destruct (joinable (SelStr "request_id" :: select)) as [names|e] eqn:J;
      [|discriminate].
    destruct (joinable_request_id _ _ J) as [names' ->].
    cbn [bind fst snd].
    destruct pre' as [[|]|]; intros H Hs; inversion H; try discriminate;
      apply column_select_columns, search_request_id.
  - destruct pre as [[|]|]; intros H Hs; inversion H; try discriminate;
      reflexivity.
Qed.

Lemma drop_metadata_request_id res :
  Frame.column "request_id" (drop_metadata res) = Frame.column "request_id" res.
Proof.
  unfold drop_metadata. apply column_select_columns.
  apply negb_true_iff, not_true_iff_false. rewrite existsb_eqb_In, filter_In.
  intros [H _]. simpl in H.
  repeat (destruct H as [H|H]; [discriminate|]). exact H.
Qed.

(** With an endpoint that scores every item, each bundle brings back a
    frame whose request_id column holds the digests of its texts. *)
Lemma process_all_scored bundles : forall ops w contents,
  scores_every_item w ->
  dict_get "request_id" (add ops) = None ->
  fst (fst (process_all bundles ops w)) = Ok contents ->
  concat (map (Frame.column "request_id") (somes contents))
  = map content_key (concat bundles).
Proof.
  induction bundles as [|bundle bundles IH]; intros ops w contents Hw Hadd;
    cbn [process_all].
  - intros H. inversion H. reflexivity.
  - destruct (body (add ops) (map Data.text bundle)) as [b|e] eqn:Hb.
    + destruct (Hw (length (posts w)) b) as [Hs [f [Hr Hf]]].
      rewrite (_process_scored bundle ops w b f Hb Hs Hr). cbn [fst snd].
      destruct (fst (fst (process_all bundles ops (snd (post b w)))))
        as [contents'|e] eqn:E; [|discriminate].
      intros H. inversion H; subst contents.
      cbn [somes flat_map]. fold (somes contents').
      cbn [app map concat]. rewrite map_app.
      rewrite (IH ops (snd (post b w)) contents' Hw Hadd E).
      f_equal. rewrite Hf, (body_request_ids _ _ _ Hadd Hb), map_map.
      reflexivity.
    + rewrite _process_eq, Hb. discriminate.
Qed.

Lemma echo_world_scores : scores_every_item echo_world.
Proof.
  intros n b. split; [reflexivity|].
  exists (echo_results b). split; [reflexivity|].
  unfold Frame.column, echo_results; simpl. now rewrite map_map.
Qed.

(** C1 (counterexample): four different texts, two to a bundle, every
    bundle scored at once; the run returns a table, and its rows are those
    of the first, the fourth, the second and the third text, in that
    order.  Next to it, what the rows owe to the endpoint and to
    [api_args]: with a bundle that is never scored the run returns one row
    for two texts, and with a request_id among the [api_args] the row
    carries that value, not the digest of its text. *)
Lemma rows_not_in_input_order :
  request (platform := sample_platform) (default_params four_texts 2) echo_world
  = (Ok four_texts_table,
     snd (request (platform := sample_platform) (default_params four_texts 2)
            echo_world)) /\
  Frame.column "request_id" four_texts_table
  = map (fun s => Some (Md5.hexdigest s)) ["a"; "d"; "b"; "c"]%string /\
  Frame.column "request_id" four_texts_table
  <> map (option_map Md5.hexdigest) four_texts /\
  (length (text (two_texts_params 2)) = 2 /\
   option_map (fun t => length (Frame.rows t))
     (match fst (request (platform := sample_platform) (two_texts_params 2)
                   never_scores_b) with
      | Ok t => Some t
      | Raise _ => None
      end) = Some 1) /\
  option_map (Frame.column "request_id")
    (match fst (request (platform := sample_platform) request_id_params
                  echo_world) with
     | Ok t => Some t
     | Raise _ => None
     end) = Some [Some "x"%string].
Proof.
  split; [vm_compute; reflexivity|].
  split; [vm_compute; reflexivity|].
  split; [vm_compute; discriminate|].
  split; [split; vm_compute; reflexivity|].
  vm_compute. reflexivity.
Qed.

(** ** A text over the limit *)

Lemma split_group_ok_sizes {platform : Platform} limit group txts :
  forall start current end_ bundles out,
  split_group limit group txts start current end_ bundles = Ok out ->
  forall t, In t txts -> (getsizeof_text t <= limit)%Z.
Proof.
  induction txts as [|txt txts IH]; intros start current end_ bundles out H t Hin;
    simpl in *; [contradiction|].
  destruct (Z.gtb_spec (getsizeof_text txt) limit) as [|Hle]; simpl in H;
    [discriminate|].
  destruct Hin as [<-|Hin]; [assumption|].
  destruct (current + getsizeof_text txt >? limit)%Z; eapply IH; eauto.
Qed.

Lemma bundle_groups_ok_sizes {platform : Platform} limit groups :
  (forall g r, In r g ->
     (getsizeof_text (Data.text r) <= getsizeof_frame g)%Z) ->
  forall bundles out,
  bundle_groups limit groups bundles = Ok out ->
  forall g r, In g groups -> In r (snd g) ->
              (getsizeof_text (Data.text r) <= limit)%Z.
Proof.
  intros Hframe.
  induction groups as [|[k group] groups IH]; intros bundles out H g r Hg Hr;
    simpl in *; [contradiction|].
  destruct (Z.gtb_spec (getsizeof_frame group) limit) as [Hgt|Hle].
  - destruct (split_group limit group (map Data.text group) 0 0 0 bundles)
      as [bundles'|e] eqn:E; simpl in H; [|discriminate].
    destruct Hg as [<-|Hg]; [|eapply IH; eauto].
    simpl in Hr. eapply split_group_ok_sizes; [exact E|].
    now apply in_map.
  - destruct Hg as [<-|Hg]; [|eapply IH; eauto].
    simpl in Hr. specialize (Hframe group r Hr). lia.
Qed.

(** X20: when line 140 removed nothing and a group is at least as large as
    each of its texts, a text over the limit ends the preparation with the
    error of lines 154-157. *)
Lemma oversized_text_reported {platform : Platform} p data r :
  (forall g r', In r' g ->
     (getsizeof_text (Data.text r') <= getsizeof_frame g)%Z) ->
  length data = length (text p) ->
  In r data ->
  (getsizeof_text (Data.text r) > bundle_byte_limit p)%Z ->
  make_bundles p data = Raise TextOverBundleLimit.
Proof.
  intros Hframe Hlen Hr Hover. unfold make_bundles, groupby. cbv zeta.
  set (keys := group_keys (length (text p)) (bundle_size p)).
  assert (Hk : length keys = length data)
    by (unfold keys; now rewrite group_keys_length).
  rewrite Hk, Nat.eqb_refl. simpl.
  destruct (bundle_groups (bundle_byte_limit p) _ []) as [out|e] eqn:E.
  - exfalso.
    assert (Hperm := groups_permutation (sorted_keys keys)
                       (sorted_keys_NoDup keys) data keys Hk
                       (fun k => proj2 (sorted_keys_In keys k))).
    apply Permutation_sym in Hperm.
    apply (Permutation_in _ Hperm) in Hr.
    apply in_concat in Hr. destruct Hr as [g [Hg Hrg]].
    apply in_map_iff in Hg. destruct Hg as [k [<- Hkin]].
    pose proof (bundle_groups_ok_sizes _ _ Hframe _ _ E
                  (k, rows_with_key k data keys) r
                  (in_map _ _ _ Hkin) Hrg).
    lia.
  - f_equal. eapply bundle_groups_raises. exact E.
Qed.

(** ** The error for no valid texts *)

Lemma body_raises add txts e :
  body add txts = Raise e -> e = MissingTextEncode.
Proof.
  induction txts as [|[s|] txts IH]; simpl; try discriminate.
  - destruct (body add txts); simpl; [discriminate|].
    intros H. inversion H; subst. now apply IH.
  - congruence.
Qed.

Lemma _process_raises bundle e : forall ops w,
  fst (fst (_process bundle ops w)) = Raise e ->
  e = MissingTextEncode \/ e = ResultsNotReadable.
Proof.
  intros ops. remember (Z.to_nat (retries ops)) as n eqn:Hn.
  revert ops Hn. induction n as [|n IH]; intros ops Hn w;
    rewrite _process_eq;
    (destruct (body (add ops) (map Data.text bundle)) as [b|e'] eqn:Hb;
     [|simpl; intros H; inversion H; subst; left; eapply body_raises; eauto]);
    cbv zeta;
    (destruct (status_code (fst (post b w)) =? 200)%Z;
     [destruct (results (fst (post b w))); simpl; [discriminate|];
      intros H; inversion H; now right|]);
    destruct (Z_gt_dec (retries ops) 0) as [Hgt|Hle]; simpl;
      try discriminate; try lia.
  match goal with
  | |- context [_process bundle ?o ?w'] =>
      specialize (IH o ltac:(simpl; lia) w');
      destruct (fst (fst (_process bundle o w'))); [discriminate|]
  end.
  intros H. inversion H; subst. now apply IH.
Qed.

Lemma process_all_raises bundles e : forall ops w,
  fst (fst (process_all bundles ops w)) = Raise e ->
  e = MissingTextEncode \/ e = ResultsNotReadable.
Proof.
  induction bundles as [|bundle bundles IH]; intros ops w; cbn [process_all].
  - discriminate.
  - destruct (fst (fst (_process bundle ops w))) as [content|e'] eqn:E;
      cbn [fst snd].
    + destruct (fst (fst (process_all bundles _ _))) as [contents|e'] eqn:E';
        [discriminate|].
      intros H. inversion H; subst. eapply IH; eauto.
    + intros H. inversion H; subst. eapply _process_raises; eauto.
Qed.

Lemma select_frameworks_raises fw pre f e :
  select_frameworks fw pre f = Raise e -> e = JoinExpectedStr.
Proof.
  unfold select_frameworks. destruct fw as [fw|]; simpl.
  - destruct (resolve_frameworks fw pre) as [select pre'].
    assert (Hj : forall e', joinable select = Raise e' -> e' = JoinExpectedStr).
    { induction select as [|[s|l] select IH]; simpl; try discriminate.
      - destruct (joinable select); simpl; [discriminate|].
        intros e' H. inversion H; subst. now apply IH.
      - congruence. }
    destruct (joinable select) as [names|e'] eqn:J; simpl.
    + destruct pre' as [[|]|]; discriminate.
    + intros H. inversion H; subst. now apply Hj.
  - destruct pre as [[|]|]; discriminate.
Qed.

(** X21: no run ends with the error for no valid texts. *)
Lemma request_never_no_valid_texts {platform : Platform} p w :
  fst (request p w) <> Raise NoValidTexts.
Proof.
  unfold request.
  destruct (match output p with
            | Some path => isfile path w && negb (overwrite p)
            | None => false
            end); [discriminate|].
  destruct (negb (api_status w =? 200)%Z); [discriminate|].
  destruct (prepare p) as [bundles|e] eqn:P; simpl.
  - destruct (fst (fst (process_all bundles (make_ops p) w)))
      as [contents|e] eqn:E; simpl.
    + destruct (pandas_concat contents) as [res|e] eqn:C; simpl.
      * unfold finalize; simpl. intros H.
        apply select_frameworks_raises in H. discriminate.
      * unfold pandas_concat in C. destruct contents; [congruence|].
        destruct (somes (o :: contents)); congruence.
    + intros H. inversion H; subst.
      apply process_all_raises in E. destruct E; discriminate.
  - intros H. inversion H; subst. now apply prepare_never_no_valid_texts in P.
Qed.

(** * Further properties *)

(** ** What line 140 keeps *)

Lemma select_rows_drop_seen data : forall seen,
  select_rows data
    (map (fun '(dup, t) => negb dup || is_empty_text t || isna t)
         (combine (duplicated_from seen (map Data.text data))
                  (map Data.text data)))
  = drop_seen seen data.
Proof.
  unfold select_rows.
  induction data as [|r data IH]; intros seen; simpl; [reflexivity|].
  unfold blank. rewrite <- orb_assoc.
  destruct (negb (existsb (text_eqb (Data.text r)) seen)
            || (is_empty_text (Data.text r) || isna (Data.text r)));
    simpl; now rewrite IH.
Qed.

Lemma drop_duplicates_drop_seen data : drop_duplicates data = drop_seen [] data.
Proof. apply select_rows_drop_seen. Qed.

Lemma existsb_text_In t seen :
  existsb (text_eqb t) seen = true <-> In t seen.
Proof.
  rewrite existsb_exists. split.
  - intros [x [Hin Heq]]. apply text_eqb_eq in Heq. now subst.
  - intros Hin. exists t. split; [assumption|]. now apply text_eqb_eq.
Qed.

Lemma drop_seen_keeps_text r data : forall seen,
  In r data ->
  In (Data.text r) seen \/
  exists r', In r' (drop_seen seen data) /\ Data.text r' = Data.text r.
Proof.
  induction data as [|x data IH]; intros seen Hin; [destruct Hin|].
  simpl.
  destruct (negb (existsb (text_eqb (Data.text x)) seen) || blank (Data.text x))
    eqn:Hkeep.
  - destruct Hin as [->|Hin]; [right; exists r; simpl; auto|].
    destruct (IH (seen ++ [Data.text x]) Hin) as [Hseen|[r' [Hr' Ht]]].
    + apply in_app_or in Hseen. destruct Hseen as [Hseen|[Hx|[]]]; [now left|].
      right. exists x. simpl. auto.
    + right. exists r'. simpl. auto.
  - apply orb_false_iff in Hkeep. destruct Hkeep as [Hdup _].
    apply negb_false_iff, existsb_text_In in Hdup.
    destruct Hin as [->|Hin]; [now left|].
    destruct (IH (seen ++ [Data.text x]) Hin) as [Hseen|[r' [Hr' Ht]]].
    + apply in_app_or in Hseen. destruct Hseen as [Hseen|[Hx|[]]]; [now left|].
      left. now rewrite <- Hx.
    + right. exists r'. auto.
Qed.

(** X1: every text of the input is the text of a record that line 140
    keeps: no text is lost to the removal of duplicates. *)
Theorem drop_duplicates_keeps_every_text (data : Data.frame) (r : Data.row) :
  In r data ->
  exists r', In r' (drop_duplicates data) /\ Data.text r' = Data.text r.
Proof.
  intros Hin. rewrite drop_duplicates_drop_seen.
  destruct (drop_seen_keeps_text r data [] Hin) as [[]|H]. exact H.
Qed.

Lemma drop_duplicates_keeps_every_text_witness :
  exists r', In r' (drop_duplicates sample_data) /\
             Data.text r' = Some "hello"%string.
Proof.
  apply (drop_duplicates_keeps_every_text sample_data
           {| Data.text := Some "hello"%string; Data.id := IdInt 2 |}).
  simpl. auto.
Defined.

Lemma sendable_drop_seen data : forall seen,
  NoDup (sendable_texts (drop_seen seen data)) /\
  forall t, In t (sendable_texts (drop_seen seen data)) -> ~ In t seen.
Proof.
  unfold sendable_texts.
  induction data as [|x data IH]; intros seen; simpl.
  - split; [constructor|intros t []].
  - destruct (IH (seen ++ [Data.text x])) as [Hnd Hnot].
    destruct (negb (existsb (text_eqb (Data.text x)) seen) || blank (Data.text x))
      eqn:Hkeep.
    + simpl. destruct (blank (Data.text x)) eqn:Hb; simpl.
      * split; [assumption|].
        intros t Ht Hs. apply (Hnot t Ht). apply in_or_app. now left.
      * rewrite orb_false_r in Hkeep.
        apply negb_true_iff in Hkeep.
        assert (Hx : ~ In (Data.text x) seen).
        { intros H. apply existsb_text_In in H. congruence. }
        split.
        -- constructor; [|assumption].
           intros H. apply (Hnot _ H). apply in_or_app. right. now left.
        -- intros t [<-|Ht]; [assumption|].
           intros Hs. apply (Hnot t Ht). apply in_or_app. now left.
    + split; [assumption|].
      intros t Ht Hs. apply (Hnot t Ht). apply in_or_app. now left.
Qed.

(** X2: among the records line 140 keeps, no text that is neither empty
    nor missing occurs twice. *)
Theorem drop_duplicates_sendable_distinct (data : Data.frame) :
  NoDup (sendable_texts (drop_duplicates data)).
Proof.
  rewrite drop_duplicates_drop_seen. apply sendable_drop_seen.
Qed.

Lemma drop_seen_ext data : forall seen1 seen2,
  (forall t, In t seen1 <-> In t seen2) ->
  drop_seen seen1 data = drop_seen seen2 data.
Proof.
  induction data as [|x data IH]; intros seen1 seen2 H; simpl; [reflexivity|].
  assert (E : existsb (text_eqb (Data.text x)) seen1
              = existsb (text_eqb (Data.text x)) seen2).
  { apply eq_true_iff_eq. now rewrite !existsb_text_In. }
  rewrite E.
  rewrite (IH (seen1 ++ [Data.text x]) (seen2 ++ [Data.text x])); [reflexivity|].
  intros t. rewrite !in_app_iff, H. reflexivity.
Qed.

Lemma drop_seen_idempotent data : forall seen,
  drop_seen seen (drop_seen seen data) = drop_seen seen data.
Proof.
  induction data as [|x data IH]; intros seen; simpl; [reflexivity|].
  destruct (negb (existsb (text_eqb (Data.text x)) seen) || blank (Data.text x))
    eqn:Hkeep.
  - simpl. rewrite Hkeep. now rewrite IH.
  - apply orb_false_iff in Hkeep. destruct Hkeep as [Hdup _].
    apply negb_false_iff, existsb_text_In in Hdup.
    rewrite (drop_seen_ext _ seen (seen ++ [Data.text x])); [apply IH|].
    intros t. rewrite in_app_iff. simpl. intuition congruence.
Qed.

(** X3: line 140 changes nothing in a frame it has been applied to. *)
Theorem drop_duplicates_idempotent (data : Data.frame) :
  drop_duplicates (drop_duplicates data) = drop_duplicates data.
Proof.
  rewrite !drop_duplicates_drop_seen. apply drop_seen_idempotent.
Qed.

(** ** A repeated text *)

Lemma filter_length_lt {A} (f : A -> bool) (l : list A) x :
  In x l -> f x = false -> length (filter f l) < length l.
Proof.
  induction l as [|y l IH]; intros Hin Hf; [destruct Hin|]. simpl.
  pose proof (filter_length_le f l).
  destruct Hin as [->|Hin].
  - rewrite Hf. lia.
  - specialize (IH Hin Hf). destruct (f y); simpl; lia.
Qed.

Lemma in_combine_seq {A} (l : list A) : forall s i x,
  nth_error l i = Some x -> In (s + i, x) (combine (seq s (length l)) l).
Proof.
  induction l as [|y l IH]; intros s [|i] x H; simpl in *; try discriminate.
  - inversion H; subst. left. f_equal. lia.
  - right. replace (s + S i) with (S s + i) by lia. now apply IH.
Qed.

Lemma DataFrame_texts text ids :
  length ids = length text -> map Data.text (DataFrame text ids) = text.
Proof.
  unfold DataFrame. revert ids.
  induction text as [|t text IH]; intros [|i ids] H; simpl in *;
    try discriminate; [reflexivity|].
  f_equal. apply IH. lia.
Qed.

Lemma DataFrame_length text ids :
  length ids = length text -> length (DataFrame text ids) = length text.
Proof.
  intros H. rewrite <- (DataFrame_texts text ids H) at 2.
  now rewrite length_map.
Qed.

Lemma resolve_ids_length p given :
  resolve_ids p = Ok given -> length given = length (text p).
Proof.
  unfold resolve_ids. destruct (ids p) as [l|].
  - destruct (Nat.eqb_spec (length l) (length (text p))); [|discriminate].
    intros H. now inversion H; subst.
  - intros H. inversion H; subst.
    unfold default_ids. now rewrite length_map, length_seq.
Qed.

(** X4: when a text that is not empty is given twice, line 140 leaves fewer
    rows than there are texts, and the preparation ends in [groupby], whose
    key array has one entry per text given. *)
Theorem repeated_text_fails_in_groupby {platform : Platform}
    (p : params) (l : list ident) (i j : nat) (s : string) :
  resolve_ids p = Ok l ->
  i < j ->
  nth_error (text p) i = Some (Some s) ->
  nth_error (text p) j = Some (Some s) ->
  s <> EmptyString ->
  length (deduplicated p l) < length (text p) /\
  prepare p = Raise GrouperAxisLength.
Proof.
  intros Hids Hij Hi Hj Hs.
  pose proof (resolve_ids_length _ _ Hids) as Hlen.
  assert (Hshort : length (deduplicated p l) < length (text p)).
  { unfold deduplicated. set (data := DataFrame (text p) l).
    assert (Htexts : map Data.text data = text p)
      by (now apply DataFrame_texts).
    assert (Hj' : nth_error (map Data.text data) j = Some (Some s))
      by (now rewrite Htexts).
    rewrite nth_error_map in Hj'.
    destruct (nth_error data j) as [r|] eqn:Hr; [|discriminate].
    simpl in Hj'. inversion Hj' as [Hrt].
    rewrite drop_duplicates_survivors.
    rewrite length_map.
    replace (length (text p))
      with (length (combine (seq 0 (length data)) data))
      by (rewrite length_combine, length_seq, Nat.min_id;
          now apply DataFrame_length).
    apply (filter_length_lt _ _ (j, r)).
    - apply (in_combine_seq data 0 j r Hr).
    - simpl. rewrite (survives_unfold _ _ _ Hr), Hrt. simpl.
      destruct (String.eqb_spec s EmptyString) as [|_]; [contradiction|].
      rewrite !orb_false_r. apply negb_false_iff.
      destruct (existsb (text_eqb (Some s)) (firstn j (map Data.text data)))
        eqn:E; [reflexivity|].
      exfalso. rewrite existsb_firstn_false in E.
      apply (E i (Some s) Hij); [now rewrite Htexts|reflexivity]. }
  split; [assumption|].
  unfold prepare. rewrite Hids. simpl.
  unfold make_bundles, groupby. cbv zeta. rewrite group_keys_length.
  destruct (Nat.eqb_spec (length (text p)) (length (deduplicated p l)));
    [lia|reflexivity].
Qed.

Lemma repeated_text_fails_in_groupby_witness :
  length (deduplicated (default_params [Some "a"; Some "b"; Some "a"]%string 1000)
                       (default_ids 3)) < 3 /\
  prepare (platform := sample_platform)
    (default_params [Some "a"; Some "b"; Some "a"]%string 1000)
  = Raise GrouperAxisLength.
Proof.
  apply (repeated_text_fails_in_groupby (platform := sample_platform)
           (default_params [Some "a"; Some "b"; Some "a"]%string 1000)
           (default_ids 3) 0 2 "a"%string eq_refl);
    [lia | reflexivity | reflexivity | discriminate].
Defined.

(** ** How many bundles, and of what size *)

Lemma seq_sorted n : forall s, StronglySorted lt (seq s n).
Proof.
  induction n as [|n IH]; intros s; simpl; constructor; [apply IH|].
  apply Forall_forall. intros x Hx. apply in_seq in Hx. lia.
Qed.

Lemma sorted_same_elements (l1 : list nat) : forall l2,
  StronglySorted lt l1 -> StronglySorted lt l2 ->
  (forall x, In x l1 <-> In x l2) -> l1 = l2.
Proof.
  induction l1 as [|a l1 IH]; intros [|b l2] H1 H2 Heq.
  - reflexivity.
  - exfalso. apply (proj2 (Heq b)). now left.
  - exfalso. apply (proj1 (Heq a)). now left.
  - inversion H1 as [|? ? Hs1 Ha]; inversion H2 as [|? ? Hs2 Hb]; subst.
    rewrite Forall_forall in Ha, Hb.
    assert (a = b).
    { destruct (proj1 (Heq a) (or_introl eq_refl)) as [|Hin]; [congruence|].
      destruct (proj2 (Heq b) (or_introl eq_refl)) as [|Hin']; [congruence|].
      specialize (Ha _ Hin'). specialize (Hb _ Hin). lia. }
    subst b. f_equal. apply IH; auto.
    intros x. split; intros Hx.
    + destruct (proj1 (Heq x) (or_intror Hx)) as [->|]; [|assumption].
      specialize (Ha _ Hx). lia.
    + destruct (proj2 (Heq x) (or_intror Hx)) as [->|]; [|assumption].
      specialize (Hb _ Hx). lia.
Qed.

(** The keys in use are the first [min(n, k)] naturals. *)
Lemma sorted_group_keys n bs :
  sorted_keys (group_keys n bs) = seq 0 (Nat.min n (n_groups n bs)).
Proof.
  apply sorted_same_elements;
    [apply sorted_keys_sorted | apply seq_sorted |].
  intros x. rewrite sorted_keys_In, group_keys_mod, in_map_iff, in_seq.
  pose proof (n_groups_bounds n bs) as [Hk _].
  split.
  - intros [i [<- Hi]]. apply in_seq in Hi.
    pose proof (Nat.mod_upper_bound i (n_groups n bs)).
    pose proof (Nat.Div0.mod_le i (n_groups n bs)). lia.
  - intros Hx. exists x. split; [apply Nat.mod_small; lia|].
    apply in_seq. lia.
Qed.

Lemma count_occ_seq j n :
  count_occ Nat.eq_dec (seq 0 n) j = if j <? n then 1 else 0.
Proof.
  induction n as [|n IH]; [reflexivity|].
  rewrite seq_S, count_occ_app, IH. simpl.
  destruct (Nat.eq_dec n j), (Nat.ltb_spec j n), (Nat.ltb_spec j (S n)); lia.
Qed.

(** How often line 145 hands out the key [j]. *)
Lemma count_occ_mod_exact j k : forall q n,
  j < k -> n < S q * k ->
  count_occ Nat.eq_dec (map (fun i => i mod k) (seq 0 n)) j
  = n / k + (if j <? n mod k then 1 else 0).
Proof.
  induction q as [|q IH]; intros n Hj Hn; simpl in Hn.
  - rewrite map_mod_small by lia.
    rewrite count_occ_seq, Nat.div_small, Nat.mod_small by lia. reflexivity.
  - destruct (Nat.lt_ge_cases n k) as [Hlt|Hge].
    + rewrite map_mod_small by lia.
      rewrite count_occ_seq, Nat.div_small, Nat.mod_small by lia. reflexivity.
    + replace n with (k + (n - k)) at 1 by lia.
      rewrite seq_app, map_app, count_occ_app, (map_mod_small k k) by lia.
      simpl. rewrite map_mod_shift, count_occ_seq, (IH (n - k)) by (simpl; lia).
      destruct (Nat.ltb_spec j k); [|lia].
      replace n with ((n - k) + 1 * k) at 3 4 by lia.
      rewrite Nat.div_add, Nat.Div0.mod_add by lia. lia.
Qed.

Lemma rows_with_key_count {A} j (data : list A) : forall keys,
  length keys = length data ->
  length (rows_with_key j data keys) = count_occ Nat.eq_dec keys j.
Proof.
  induction data as [|x data IH]; intros [|k keys] H; simpl in H;
    try discriminate; [reflexivity|].
  rewrite rows_with_key_cons. simpl.
  destruct (Nat.eqb_spec k j) as [->|Hne].
  - destruct (Nat.eq_dec j j); [|congruence]. simpl. f_equal. apply IH. lia.
  - destruct (Nat.eq_dec k j); [congruence|]. apply IH. lia.
Qed.

Lemma rows_at_residue_length {A} j n bs (data : list A) :
  length data = n -> j < n_groups n bs ->
  length (rows_at_residue j (n_groups n bs) data)
  = n / n_groups n bs + (if j <? n mod n_groups n bs then 1 else 0).
Proof.
  intros Hn Hj. rewrite <- (rows_with_key_residue j n bs data Hn).
  rewrite rows_with_key_count by (now rewrite group_keys_length).
  rewrite group_keys_mod.
  apply (count_occ_mod_exact j (n_groups n bs) n n Hj).
  pose proof (n_groups_bounds n bs). nia.
Qed.

Lemma make_bundles_within_limit {platform : Platform} p data bundles :
  (forall j, j < n_groups (length (text p)) (bundle_size p) ->
     (getsizeof_frame
        (rows_at_residue j (n_groups (length (text p)) (bundle_size p)) data)
      <= bundle_byte_limit p)%Z) ->
  make_bundles p data = Ok bundles ->
  length data = length (text p) /\
  bundles
  = map (fun j => rows_at_residue j (n_groups (length (text p)) (bundle_size p))
                                  data)
        (seq 0 (Nat.min (length (text p))
                        (n_groups (length (text p)) (bundle_size p)))).
Proof.
  intros Hsize H.
  destruct (make_bundles_groups _ _ _ H) as [Hlen Hb].
  split; [assumption|].
  rewrite bundle_groups_within_limit in Hb.
  - simpl in Hb. inversion Hb as [Hbundles]. rewrite map_map. simpl.
    rewrite sorted_group_keys. apply map_ext.
    intros j. now apply rows_with_key_residue.
  - intros g Hg. apply in_map_iff in Hg. destruct Hg as [j [<- Hj]]. simpl.
    rewrite (rows_with_key_residue j _ _ data Hlen).
    apply Hsize. now apply group_key_lt.
Qed.

(** X5: when no group is larger than the byte limit, there are
    [min(n, k)] bundles, [n] being the number of texts and [k] the number
    of keys of line 145, which is at least two: two texts or more never
    travel in one bundle, whatever the bundle size. *)
Theorem bundle_count_without_split {platform : Platform}
    (p : params) (data : Data.frame) (bundles : list Data.frame) :
  let k := n_groups (length (text p)) (bundle_size p) in
  (forall j, j < k ->
     (getsizeof_frame (rows_at_residue j k data) <= bundle_byte_limit p)%Z) ->
  make_bundles p data = Ok bundles ->
  length bundles = Nat.min (length data) k /\
  (2 <= length data -> 2 <= length bundles).
Proof.
  intros k Hsize H.
  destruct (make_bundles_within_limit p data bundles Hsize H) as [Hlen ->].
  rewrite length_map, length_seq, Hlen. split; [reflexivity|].
  pose proof (n_groups_bounds (length (text p)) (bundle_size p)) as [Hk Hn].
  fold k in Hk, Hn. intros H2.
  assert (2 <= k) by nia. lia.
Qed.

Lemma bundle_count_without_split_witness :
  length [[record "a" 1]; [record "b" 2]]%string
  = Nat.min (length (DataFrame [Some "a"; Some "b"]%string (default_ids 2)))
            (n_groups 2 1000) /\
  (2 <= length (DataFrame [Some "a"; Some "b"]%string (default_ids 2)) ->
   2 <= length [[record "a" 1]; [record "b" 2]]%string).
Proof.
  apply (bundle_count_without_split (platform := sample_platform)
           (default_params [Some "a"; Some "b"]%string 1000)
           (DataFrame [Some "a"; Some "b"]%string (default_ids 2))
           [[record "a" 1]; [record "b" 2]]%string).
  - intros [|[|j]] Hj; vm_compute; discriminate.
  - reflexivity.
Defined.

(** X6: when no group is larger than the byte limit, the bundles are of
    even size: each holds the quotient of the number of records by the
    number of keys, or one record more. *)
Theorem bundle_sizes_even {platform : Platform}
    (p : params) (data : Data.frame) (bundles : list Data.frame) :
  let k := n_groups (length (text p)) (bundle_size p) in
  (forall j, j < k ->
     (getsizeof_frame (rows_at_residue j k data) <= bundle_byte_limit p)%Z) ->
  make_bundles p data = Ok bundles ->
  Forall (fun b => length data / k <= length b <= length data / k + 1) bundles.
Proof.
  intros k Hsize H.
  destruct (make_bundles_within_limit p data bundles Hsize H) as [Hlen ->].
  apply Forall_forall. intros b Hb. apply in_map_iff in Hb.
  destruct Hb as [j [<- Hj]]. apply in_seq in Hj.
  rewrite (rows_at_residue_length j (length (text p)) (bundle_size p) data Hlen)
    by lia.
  fold k. rewrite Hlen.
  destruct (j <? length (text p) mod k); lia.
Qed.

Lemma bundle_sizes_even_witness :
  Forall (fun b => length four_records / n_groups 4 2 <= length b
                   <= length four_records / n_groups 4 2 + 1)
    [[record "a" 1; record "d" 4]; [record "b" 2]; [record "c" 3]]%string.
Proof.
  apply (bundle_sizes_even (platform := sample_platform)
           (default_params four_texts 2) four_records
           [[record "a" 1; record "d" 4]; [record "b" 2]; [record "c" 3]]%string).
  - intros [|[|[|j]]] Hj; vm_compute; discriminate.
  - reflexivity.
Defined.

(** ** The bundles of a group cut by size *)

Section SplitFacts.

Context {platform : Platform}.

Lemma split_group_pieces limit group : forall rest pre start current acc out,
  group = pre ++ rest ->
  start <= length pre ->
  split_group limit group (map Data.text rest) start current (length pre) acc
  = Ok out ->
  exists pieces dropped,
    out = acc ++ pieces /\
    Permutation (concat pieces ++ dropped) (skipn start pre ++ rest) /\
    length pieces = S (length dropped).
Proof.
  induction rest as [|x rest IH]; intros pre start current acc out Hg Hstart;
    simpl.
  - intros H. inversion H; subst out. rewrite app_nil_r in Hg. subst pre.
    exists [Py.slice_from start group], []. unfold Py.slice_from. simpl.
    repeat split. now rewrite !app_nil_r.
  - destruct (getsizeof_text (Data.text x) >? limit)%Z; simpl; [discriminate|].
    assert (Hg' : group = (pre ++ [x]) ++ rest)
      by (now rewrite <- app_assoc).
    assert (Hl' : S (length pre) = length (pre ++ [x]))
      by (rewrite length_app; simpl; lia).
    destruct (current + getsizeof_text (Data.text x) >? limit)%Z;
      rewrite Hl'; intros H.
    + destruct (IH (pre ++ [x]) _ _ _ _ Hg' (Nat.le_refl _) H)
        as [pieces [dropped [Hout [Hperm Hcount]]]].
      rewrite skipn_all in Hperm. simpl in Hperm.
      exists (skipn start pre :: pieces), (x :: dropped).
      rewrite Hout, <- app_assoc. simpl.
      rewrite Hg at 1. rewrite slice_processed by assumption.
      repeat split; [|lia].
      rewrite <- app_assoc. apply Permutation_app_head.
      apply Permutation_sym, Permutation_cons_app, Permutation_sym.
      exact Hperm.
    + destruct (IH (pre ++ [x]) start _ _ _ Hg' ltac:(lia) H)
        as [pieces [dropped [Hout [Hperm Hcount]]]].
      exists pieces, dropped. repeat split; auto.
      rewrite skipn_app in Hperm.
      replace (start - length pre) with 0 in Hperm by lia.
      now rewrite <- app_assoc in Hperm.
Qed.

Lemma bundle_groups_pieces limit groups : forall acc out,
  bundle_groups limit groups acc = Ok out ->
  exists pieces dropped,
    out = acc ++ pieces /\
    Permutation (concat pieces ++ dropped) (concat (map snd groups)) /\
    length pieces = length groups + length dropped.
Proof.
  induction groups as [|[k group] groups IH]; intros acc out; simpl.
  - intros H. inversion H; subst. exists [], []. now rewrite app_nil_r.
  - destruct (getsizeof_frame group >? limit)%Z.
    + destruct (split_group limit group (map Data.text group) 0 0 0 acc)
        as [acc'|e] eqn:E; simpl; [|discriminate].
      intros H.
      destruct (split_group_pieces limit group group [] 0 0%Z acc acc'
                  eq_refl (Nat.le_refl _) E)
        as [pieces1 [dropped1 [Hacc' [Hperm1 Hcount1]]]].
      destruct (IH _ _ H) as [pieces2 [dropped2 [Hout [Hperm2 Hcount2]]]].
      simpl in Hperm1.
      exists (pieces1 ++ pieces2), (dropped1 ++ dropped2).
      rewrite Hout, Hacc', <- app_assoc. repeat split.
      * rewrite concat_app, <- Hperm1, <- Hperm2.
        rewrite <- !app_assoc. apply Permutation_app_head.
        rewrite !app_assoc. apply Permutation_app_tail.
        apply Permutation_app_comm.
      * rewrite !length_app. lia.
    + intros H.
      destruct (IH _ _ H) as [pieces [dropped [Hout [Hperm Hcount]]]].
      exists (group :: pieces), dropped.
      rewrite Hout, <- app_assoc. simpl. repeat split; [|lia].
      rewrite <- app_assoc. now apply Permutation_app_head.
Qed.

End SplitFacts.

(** X7: whatever the sizes, no record is in two bundles: the bundles laid
    end to end, together with the records left out, are the records of the
    frame; and as many records are left out as there are bundles beyond
    the [min(n, k)] groups, one for every cut the size loop makes. *)
Theorem bundles_hold_no_record_twice {platform : Platform}
    (p : params) (data : Data.frame) (bundles : list Data.frame) :
  make_bundles p data = Ok bundles ->
  exists dropped,
    Permutation (concat bundles ++ dropped) data /\
    length bundles
    = Nat.min (length data) (n_groups (length (text p)) (bundle_size p))
      + length dropped.
Proof.
  intros H.
  destruct (make_bundles_groups _ _ _ H) as [Hlen Hb].
  destruct (bundle_groups_pieces _ _ _ _ Hb)
    as [pieces [dropped [Hout [Hperm Hcount]]]].
  simpl in Hout. subst pieces. exists dropped. split.
  - rewrite Hperm, map_map. simpl.
    apply groups_permutation.
    + apply sorted_keys_NoDup.
    + now rewrite group_keys_length.
    + intros j. apply sorted_keys_In.
  - rewrite Hcount, length_map, sorted_group_keys, length_seq, Hlen.
    reflexivity.
Qed.

Lemma bundles_hold_no_record_twice_witness :
  exists dropped,
    Permutation
      (concat [[record "aaaaaaaaaa" 1]; []; [record "bbbbbbbbbb" 2]]%string
       ++ dropped)
      three_long_records /\
    length [[record "aaaaaaaaaa" 1]; []; [record "bbbbbbbbbb" 2]]%string
    = Nat.min (length three_long_records) (n_groups 3 1000) + length dropped.
Proof.
  apply (bundles_hold_no_record_twice (platform := sample_platform)
           three_long_params three_long_records
           [[record "aaaaaaaaaa" 1]; []; [record "bbbbbbbbbb" 2]]%string).
  reflexivity.
Defined.

(** ** What a call of [_process] does to the world *)

Lemma _process_effects bundle b : forall n ops w,
  Z.to_nat (retries ops) = n ->
  body (add ops) (map Data.text bundle) = Ok b ->
  exists m,
    m <= n /\
    posts (snd (_process bundle ops w)) = posts w ++ repeat b (S m) /\
    retries (snd (fst (_process bundle ops w))) = (retries ops - Z.of_nat m)%Z /\
    add (snd (fst (_process bundle ops w))) = add ops /\
    slept (snd (_process bundle ops w)) = (slept w + Z.of_nat m)%Z /\
    length (stdout (snd (_process bundle ops w))) = length (stdout w) + m /\
    files (snd (_process bundle ops w)) = files w /\
    service (snd (_process bundle ops w)) = service w /\
    api_status (snd (_process bundle ops w)) = api_status w.
Proof.
  induction n as [|n IH]; intros ops w Hn Hb;
    rewrite _process_eq, Hb; cbv zeta;
    destruct (status_code (fst (post b w)) =? 200)%Z;
    try (exists 0; simpl; repeat split; try lia; now rewrite ?Z.add_0_r);
    destruct (Z_gt_dec (retries ops) 0) as [Hgt|Hle]; try lia;
    try (exists 0; simpl; repeat split; try lia; now rewrite ?Z.add_0_r).
  destruct (IH (decrement_retries ops)
              (print (body_text (fst (post b w))) (sleep 1 (snd (post b w)))))
    as [m [Hm [Hp [Hr [Ha [Hs [Ho [Hf [Hsv Hst]]]]]]]]];
    [simpl; lia | exact Hb |].
  exists (S m). cbn [fst snd].
  rewrite Hp, Hr, Ha, Hs, Ho, Hf, Hsv, Hst. simpl.
  rewrite <- app_assoc, length_app. simpl.
  repeat split; try lia.
Qed.

(** X8: a call of [_process] on a bundle whose texts are all there posts
    the same body once and then once more for each retry it makes; it makes
    at most as many retries as [ops] has left, takes each of them off
    [ops], sleeps one second and prints one line for each, and writes no
    file. *)
Theorem _process_posts_same_body (bundle : Data.frame) (ops : ops_dict)
    (w : world) (b : list dict) :
  body (add ops) (map Data.text bundle) = Ok b ->
  exists m,
    (Z.of_nat m <= Z.max 0 (retries ops))%Z /\
    posts (snd (_process bundle ops w)) = posts w ++ repeat b (S m) /\
    retries (snd (fst (_process bundle ops w))) = (retries ops - Z.of_nat m)%Z /\
    slept (snd (_process bundle ops w)) = (slept w + Z.of_nat m)%Z /\
    length (stdout (snd (_process bundle ops w))) = length (stdout w) + m /\
    files (snd (_process bundle ops w)) = files w.
Proof.
  intros Hb.
  destruct (_process_effects bundle b _ ops w eq_refl Hb)
    as [m [Hm [Hp [Hr [_ [Hs [Ho [Hf _]]]]]]]].
  exists m. repeat split; auto. lia.
Qed.

Lemma _process_posts_same_body_witness :
  exists m,
    (Z.of_nat m <= Z.max 0 2)%Z /\
    posts (snd (_process bundle_b (make_ops (two_texts_params 2)) never_scores_b))
    = [] ++ repeat body_b (S m) /\
    retries (snd (fst (_process bundle_b (make_ops (two_texts_params 2))
                         never_scores_b)))
    = (2 - Z.of_nat m)%Z /\
    slept (snd (_process bundle_b (make_ops (two_texts_params 2)) never_scores_b))
    = (0 + Z.of_nat m)%Z /\
    length (stdout (snd (_process bundle_b (make_ops (two_texts_params 2))
                           never_scores_b)))
    = 0 + m /\
    files (snd (_process bundle_b (make_ops (two_texts_params 2)) never_scores_b))
    = [].
Proof.
  apply (_process_posts_same_body bundle_b (make_ops (two_texts_params 2))
           never_scores_b body_b eq_refl).
Defined.

Lemma _process_body_raises bundle ops w e :
  body (add ops) (map Data.text bundle) = Raise e ->
  _process bundle ops w = (Raise e, ops, w).
Proof. intros H. now rewrite _process_eq, H. Qed.

(** The retries are taken off one budget for the whole run. *)
Lemma process_all_effects bundles : forall ops w,
  length (posts (snd (process_all bundles ops w)))
  <= length (posts w) + length bundles + Z.to_nat (retries ops) /\
  files (snd (process_all bundles ops w)) = files w /\
  service (snd (process_all bundles ops w)) = service w /\
  api_status (snd (process_all bundles ops w)) = api_status w.
Proof.
  induction bundles as [|bundle bundles IH]; intros ops w; cbn [process_all].
  - simpl. repeat split. lia.
  - destruct (body (add ops) (map Data.text bundle)) as [b|e] eqn:Hb.
    + destruct (_process_effects bundle b _ ops w eq_refl Hb)
        as [m [Hm [Hp [Hr [_ [_ [_ [Hf [Hsv Hst]]]]]]]]].
      destruct (fst (fst (_process bundle ops w))) as [content|e];
        cbn [fst snd].
      * destruct (IH (snd (fst (_process bundle ops w)))
                     (snd (_process bundle ops w))) as [Hposts [Hf' [Hsv' Hst']]].
        rewrite Hf', Hsv', Hst', Hf, Hsv, Hst. repeat split.
        rewrite Hp, Hr, length_app, repeat_length in Hposts. simpl. lia.
      * rewrite Hp, Hf, Hsv, Hst, length_app, repeat_length.
        repeat split. simpl. lia.
    + rewrite (_process_body_raises _ _ _ _ Hb). cbn [fst snd].
      repeat split. simpl. lia.
Qed.

(** X9: in a run the bundles share the retries: however many bundles fail,
    the bulk POSTs of a run number at most the bundles plus [retry_limit]
    (not the bundles times [retry_limit]). *)
Theorem run_posts_bounded {platform : Platform} (p : params) (w : world)
    (bundles : list Data.frame) :
  prepare p = Ok bundles ->
  length (posts (snd (request p w)))
  <= length (posts w) + length bundles + Z.to_nat (retry_limit p).
Proof.
  intros Hp. unfold request.
  destruct (match output p with
            | Some path => isfile path w && negb (overwrite p)
            | None => false
            end); [simpl; lia|].
  destruct (negb (api_status w =? 200)%Z); [simpl; lia|].
  rewrite Hp.
  pose proof (process_all_effects bundles (make_ops p) w) as [Hposts _].
  change (retries (make_ops p)) with (retry_limit p) in Hposts.
  destruct (fst (fst (process_all bundles (make_ops p) w))) as [contents|e];
    [|exact Hposts].
  destruct (pandas_concat contents) as [res|e]; [|exact Hposts].
  unfold finalize. cbn [snd]. destruct (output p); exact Hposts.
Qed.

Lemma run_posts_bounded_witness :
  length (posts (snd (request (platform := sample_platform)
                        (two_texts_params 2) never_scores_b)))
  <= 0 + 2 + Z.to_nat 2.
Proof.
  apply (run_posts_bounded (platform := sample_platform) (two_texts_params 2)
           never_scores_b [[record "a" 1]; bundle_b]%string eq_refl).
Defined.

(** ** A missing text *)

Lemma body_ok_texts add txts b :
  body add txts = Ok b -> ~ In None txts.
Proof.
  revert b. induction txts as [|[s|] txts IH]; intros b; simpl.
  - auto.
  - destruct (body add txts) as [b'|e]; simpl; [|discriminate].
    intros _ [H|H]; [discriminate|]. now apply (IH b').
  - discriminate.
Qed.

(** X10: a missing text, which line 140 always keeps, cannot be sent: with
    an endpoint that scores every item, the bundles up to the one holding
    it are posted and the run of the bundles ends with the error of
    [text.encode()]; the bundle holding it is not posted. *)
Theorem missing_text_ends_dispatch (bundles : list Data.frame) (ops : ops_dict)
    (w : world) (bundle : Data.frame) (r : Data.row) :
  scores_every_item w ->
  In bundle bundles -> In r bundle -> Data.text r = None ->
  fst (fst (process_all bundles ops w)) = Raise MissingTextEncode /\
  length (posts (snd (process_all bundles ops w)))
  < length (posts w) + length bundles.
Proof.
  intros Hw Hin Hr Ht. revert ops w Hw.
  induction bundles as [|x bundles IH]; intros ops w Hw; [destruct Hin|].
  cbn [process_all].
  destruct (body (add ops) (map Data.text x)) as [b|e] eqn:Hb.
  - destruct (Hw (length (posts w)) b) as [Hs [f [Hres Hf]]].
    rewrite (_process_scored x ops w b f Hb Hs Hres). cbn [fst snd].
    destruct Hin as [->|Hin].
    + exfalso. apply (body_ok_texts _ _ _ Hb).
      rewrite <- Ht. now apply in_map.
    + destruct (IH Hin ops (snd (post b w)) Hw) as [Hraise Hposts].
      rewrite Hraise. split; [reflexivity|].
      simpl in Hposts |- *. rewrite length_app in Hposts. simpl in Hposts. lia.
  - rewrite (_process_body_raises _ _ _ _ Hb). cbn [fst snd].
    rewrite (body_raises _ _ _ Hb). split; [reflexivity|]. simpl. lia.
Qed.

Lemma missing_text_ends_dispatch_witness :
  fst (fst (process_all
              [[record "a" 1]; [{| Data.text := None; Data.id := IdInt 2 |}]]
              (make_ops (two_texts_params 2)) echo_world))
  = Raise MissingTextEncode /\
  length (posts (snd (process_all
              [[record "a" 1]; [{| Data.text := None; Data.id := IdInt 2 |}]]
              (make_ops (two_texts_params 2)) echo_world)))
  < 0 + 2.
Proof.
  apply (missing_text_ends_dispatch
           [[record "a" 1]; [{| Data.text := None; Data.id := IdInt 2 |}]]
           (make_ops (two_texts_params 2)) echo_world
           [{| Data.text := None; Data.id := IdInt 2 |}]
           {| Data.text := None; Data.id := IdInt 2 |}
           echo_world_scores).
  - simpl. auto.
  - simpl. auto.
  - reflexivity.
Defined.

(** ** The items of a body *)

Lemma dict_get_set_same k v d : dict_get k (dict_set k v d) = Some v.
Proof.
  induction d as [|[k0 v0] d IH]; simpl.
  - now rewrite String.eqb_refl.
  - destruct (String.eqb_spec k k0) as [->|Hne]; simpl.
    + now rewrite String.eqb_refl.
    + destruct (String.eqb_spec k k0); [contradiction|assumption].
Qed.

Lemma dict_get_absent k (d : dict) :
  ~ In k (map fst d) -> dict_get k d = None.
Proof.
  induction d as [|[k0 v0] d IH]; simpl; [reflexivity|].
  intros H. destruct (String.eqb_spec k k0) as [->|_]; [tauto|].
  apply IH. tauto.
Qed.

Lemma dict_update_given k v add : forall d,
  NoDup (map fst add) -> In (k, v) add ->
  dict_get k (dict_update d add) = Some v.
Proof.
  induction add as [|[k0 v0] add IH]; intros d Hnd Hin; [destruct Hin|].
  simpl in Hnd. inversion Hnd as [|? ? Hnotin Hnd']; subst.
  change (dict_update d ((k0, v0) :: add))
    with (dict_update (dict_set k0 v0 d) add).
  destruct Hin as [E|Hin].
  - inversion E; subst.
    rewrite dict_get_update by (now apply dict_get_absent).
    apply dict_get_set_same.
  - now apply IH.
Qed.

(** X11: the entries of [api_args] go into every item and win over the
    entries the source sets: an [api_args] with a key content or request_id
    replaces the text or the digest in every item; keys it does not hold
    keep the text and the digest. *)
Theorem api_args_win_in_items (add : dict) (s : string) (i : dict) :
  NoDup (map fst add) ->
  item add (Some s) = Ok i ->
  (forall k v, In (k, v) add -> dict_get k i = Some v) /\
  (dict_get "content" add = None -> dict_get "content" i = Some s) /\
  (dict_get "request_id" add = None ->
   dict_get "request_id" i = Some (Md5.hexdigest s)).
Proof.
  intros Hnd H. simpl in H. inversion H; subst i. repeat split.
  - intros k v Hin. now apply dict_update_given.
  - intros Hc. rewrite dict_get_update by assumption. reflexivity.
  - intros Hr. rewrite dict_get_update by assumption. reflexivity.
Qed.

Lemma api_args_win_in_items_witness :
  (forall k v, In (k, v) [("request_id", "mine"); ("lang", "en")]%string ->
     dict_get k [("content", "a"); ("request_id", "mine"); ("lang", "en")]%string
     = Some v) /\
  (dict_get "content" [("request_id", "mine"); ("lang", "en")]%string = None ->
   dict_get "content"
     [("content", "a"); ("request_id", "mine"); ("lang", "en")]%string
   = Some "a"%string) /\
  (dict_get "request_id" [("request_id", "mine"); ("lang", "en")]%string = None ->
   dict_get "request_id"
     [("content", "a"); ("request_id", "mine"); ("lang", "en")]%string
   = Some (Md5.hexdigest "a")).
Proof.
  apply (api_args_win_in_items [("request_id", "mine"); ("lang", "en")]%string
           "a"%string).
  - repeat constructor; simpl; intuition discriminate.
  - reflexivity.
Defined.

(** ** The columns a framework selects *)

Lemma strip_prefix_spec l : forall s r,
  Re.strip_prefix l s = Some r <-> s = (l ++ r)%string.
Proof.
  induction l as [|a l IH]; intros s r; simpl.
  - split; congruence.
  - destruct s as [|b s].
    + split; discriminate.
    + destruct (Ascii.eqb_spec a b) as [->|Hne].
      * rewrite IH. split; congruence.
      * split; [discriminate|]. intros H. inversion H. congruence.
Qed.

Lemma append_empty_r s : (s ++ EmptyString)%string = s.
Proof. induction s as [|a s IH]; simpl; congruence. Qed.

Lemma residuals_alternatives_In r s ps : forall p,
  In r (Re.residuals (Re.alternatives p ps) s) <->
  In r (Re.residuals p s) \/ exists q, In q ps /\ In r (Re.residuals q s).
Proof.
  induction ps as [|q ps IH]; intros p; simpl.
  - split; [auto|]. intros [H|[q [[] _]]]. exact H.
  - rewrite in_app_iff, IH. split.
    + intros [H|[H|[q' [Hq' H]]]]; eauto.
    + intros [H|[q' [[<-|Hq'] H]]]; eauto.
Qed.

Lemma residuals_names r c n names :
  In r (Re.residuals (Re.alternatives (Re.Lit n) (map Re.Lit names)) c) <->
  exists m, In m (n :: names) /\ c = (m ++ r)%string.
Proof.
  rewrite residuals_alternatives_In. simpl.
  assert (Hlit : forall m, In r (match Re.strip_prefix m c with
                                 | Some r' => [r']
                                 | None => []
                                 end) <-> c = (m ++ r)%string).
  { intros m. rewrite <- strip_prefix_spec.
    destruct (Re.strip_prefix m c); simpl; intuition congruence. }
  split.
  - intros [H|[q [Hq H]]].
    + exists n. split; [now left|]. now apply Hlit.
    + apply in_map_iff in Hq. destruct Hq as [m [<- Hm]].
      exists m. split; [now right|]. now apply Hlit.
  - intros [m [[<-|Hm] Hc]].
    + left. now apply Hlit.
    + right. exists (Re.Lit m). split; [now apply in_map|]. now apply Hlit.
Qed.

Lemma at_end_spec r :
  Re.at_end r = true <-> r = EmptyString \/ r = newline.
Proof.
  unfold newline. destruct r as [|a [|b r]]; simpl.
  - intuition.
  - destruct (Ascii.eqb_spec a (ascii_of_nat 10)) as [->|Hne].
    + intuition.
    + split; [discriminate|]. intros [H|H]; [discriminate|].
      inversion H. contradiction.
  - split; [discriminate|]. intros [H|H]; discriminate.
Qed.

(** The pattern of line 210 finds a column when the column starts with one
    of the names and goes on with nothing, a final newline, or a dot. *)
Lemma select_pattern_spec n names c :
  Re.search_at_start (select_pattern (n :: names)) c = true <->
  exists m, In m (n :: names) /\ delimited m c.
Proof.
  unfold Re.search_at_start, select_pattern. cbn [Re.residuals].
  set (heads := Re.residuals (Re.alternatives (Re.Lit n) (map Re.Lit names)) c).
  assert (Htail : forall r,
    (if Re.at_end r then [r] else [])
      ++ match Re.strip_prefix "." r with Some r' => [r'] | None => [] end
    <> [] <->
    r = EmptyString \/ r = newline \/ exists rest, r = String "." rest).
  { intros r. split.
    - destruct (Re.at_end r) eqn:E.
      + apply at_end_spec in E. tauto.
      + destruct (Re.strip_prefix "." r) as [rest|] eqn:S; [|simpl; congruence].
        apply strip_prefix_spec in S. simpl in S. eauto.
    - intros [H|[H|[rest H]]]; subst r; [discriminate|discriminate|].
      cbn [Re.strip_prefix]. rewrite Ascii.eqb_refl. cbn [Re.strip_prefix].
      destruct (if Re.at_end (String "." rest) then _ else _); discriminate. }
  split.
  - destruct (flat_map _ heads) as [|r' rs] eqn:F; [discriminate|]. intros _.
    assert (Hin : In r' (flat_map
              (fun s => (if Re.at_end s then [s] else [])
                        ++ match Re.strip_prefix "." s with
                           | Some r0 => [r0]
                           | None => []
                           end) heads))
      by (rewrite F; now left).
    apply in_flat_map in Hin. destruct Hin as [r [Hr Hr']].
    apply residuals_names in Hr. destruct Hr as [m [Hm ->]].
    exists m. split; [assumption|].
    assert (Hne : (if Re.at_end r then [r] else [])
                    ++ match Re.strip_prefix "." r with
                       | Some r0 => [r0]
                       | None => []
                       end <> [])
      by (intros E; rewrite E in Hr'; destruct Hr').
    apply Htail in Hne. unfold delimited.
    destruct Hne as [->|[->|[rest ->]]];
      [left; apply append_empty_r | right; left; reflexivity
       | right; right; eauto].
  - intros [m [Hm Hd]].
    assert (Hr : exists r, In r heads /\
              (r = EmptyString \/ r = newline \/
               exists rest, r = String "." rest)).
    { destruct Hd as [->|[->|[rest ->]]].
      - exists EmptyString. split; [|tauto].
        apply residuals_names. exists m. now rewrite append_empty_r.
      - exists newline. split; [|tauto]. apply residuals_names. eauto.
      - exists (String "." rest). split; [|eauto]. apply residuals_names. eauto. }
    destruct Hr as [r [Hin Hr]]. apply Htail in Hr.
    destruct (flat_map _ heads) as [|r' rs] eqn:F; [|reflexivity].
    exfalso.
    destruct ((if Re.at_end r then [r] else [])
                ++ match Re.strip_prefix "." r with
                   | Some r0 => [r0]
                   | None => []
                   end) as [|y ys] eqn:E; [congruence|].
    assert (Hy : In y (flat_map
              (fun s => (if Re.at_end s then [s] else [])
                        ++ match Re.strip_prefix "." s with
                           | Some r0 => [r0]
                           | None => []
                           end) heads)).
    { apply in_flat_map. exists r. split; [assumption|]. rewrite E. now left. }
    rewrite F in Hy. destruct Hy.
Qed.

Lemma joinable_strings l : joinable (map SelStr l) = Ok l.
Proof. induction l as [|s l IH]; simpl; [reflexivity|]. now rewrite IH. Qed.

(** X12: for framework names made of letters, digits and underscores and
    with the prefixes kept, the table returned for a [frameworks] argument
    holds exactly the columns of the results that belong to request_id or
    to one of the frameworks named: the name itself, or the name, a dot and
    a rest (a column that only starts like a name, as Xtra.a for X, is not
    taken). *)
Theorem frameworks_select_delimited_columns (fw : frameworks_arg)
    (pre : option bool) (f t : Frame.t) (c : string) :
  plain_frameworks (Some fw) = true ->
  select_frameworks (Some fw) pre f = Ok t ->
  strips_prefix (Some fw) pre = false ->
  (In c (Frame.columns t) <->
   In c (Frame.columns f) /\
   exists m, In m ("request_id"%string :: framework_names fw) /\ delimited m c).
Proof.
  intros _. unfold select_frameworks, strips_prefix.
  assert (Hsel : forall pre', snd (resolve_frameworks fw pre) = pre' ->
            joinable (fst (resolve_frameworks fw pre))
            = Ok ("request_id"%string :: framework_names fw) \/
            joinable (fst (resolve_frameworks fw pre)) = Raise JoinExpectedStr).
  { intros pre' _. destruct fw as [s|l]; simpl; [now left|].
    destruct (length l =? 1); simpl; [now right|].
    left. now rewrite joinable_strings. }
  destruct (resolve_frameworks fw pre) as [select pre'] eqn:R.
  specialize (Hsel pre' eq_refl). simpl in Hsel. cbn [bind fst snd].
  destruct Hsel as [-> | ->]; [|discriminate].
  cbn [bind fst snd].
  pose proof (select_pattern_spec "request_id" (framework_names fw) c) as Hspec.
  destruct pre' as [[|]|]; intros H Hs; try discriminate;
    injection H as <-;
    rewrite select_columns_columns, filter_In;
    unfold select_pattern in Hspec; rewrite Hspec; reflexivity.
Qed.

Lemma frameworks_select_delimited_columns_witness :
  In "X.a"%string
     (Frame.columns
        {| Frame.columns := ["X.a"; "request_id"]%string;
           Frame.rows := [[Some "1"; Some "k"]]%string |}) <->
  In "X.a"%string
     (Frame.columns
        {| Frame.columns := ["X.a"; "Xtra.a"; "request_id"]%string;
           Frame.rows := [[Some "1"; Some "2"; Some "k"]]%string |}) /\
  exists m, In m ("request_id"%string :: framework_names (FwStr "X")) /\
            delimited m "X.a".
Proof.
  apply (frameworks_select_delimited_columns (FwStr "X") (Some true)
           {| Frame.columns := ["X.a"; "Xtra.a"; "request_id"]%string;
              Frame.rows := [[Some "1"; Some "2"; Some "k"]]%string |}
           {| Frame.columns := ["X.a"; "request_id"]%string;
              Frame.rows := [[Some "1"; Some "k"]]%string |}
           "X.a"%string eq_refl eq_refl eq_refl).
Defined.

(** ** The prefix line 213 strips *)

Lemma after_run_not_no_char a s :
  has_char a s = false ->
  forall r, In r (Re.after_run_not a s) -> has_char a r = false.
Proof.
  induction s as [|b s IH]; simpl; intros H r Hr; [destruct Hr|].
  apply orb_false_iff in H. destruct H as [Hb Hs]. rewrite Hb in Hr.
  apply in_app_or in Hr. destruct Hr as [Hr|[<-|[]]]; auto.
Qed.

Lemma after_run_not_up_to a pre rest :
  has_char a pre = false -> pre <> EmptyString ->
  exists others,
    Re.after_run_not a (pre ++ String a rest) = String a rest :: others.
Proof.
  induction pre as [|b pre IH]; intros H Hne; [congruence|].
  simpl in H. apply orb_false_iff in H. destruct H as [Hb Hpre].
  simpl. rewrite Hb. destruct pre as [|b' pre'].
  - simpl. rewrite Ascii.eqb_refl. simpl. eauto.
  - destruct (IH Hpre ltac:(discriminate)) as [others ->].
    simpl. eauto.
Qed.

Lemma residuals_prefix_pattern s :
  Re.residuals prefix_pattern s
  = flat_map (Re.residuals (Re.Lit ".")) (Re.after_run_not "." s).
Proof. reflexivity. Qed.

Lemma residuals_dot_no_dot (l : list string) :
  (forall r, In r l -> has_char "." r = false) ->
  flat_map (Re.residuals (Re.Lit ".")) l = [].
Proof.
  induction l as [|r l IH]; intros Hall; [reflexivity|].
  cbn [flat_map]. rewrite IH by (intros r' Hr'; apply Hall; now right).
  specialize (Hall r (or_introl eq_refl)).
  destruct r as [|b r]; [reflexivity|].
  cbn [has_char] in Hall.
  apply orb_false_iff in Hall. destruct Hall as [Hb _].
  rewrite Ascii.eqb_sym in Hb.
  cbn [Re.residuals Re.strip_prefix]. now rewrite Hb.
Qed.

(** X13: the pattern of line 212 takes off a column name what comes before
    its first dot, and that dot, when something comes before it: a name
    without a dot or starting with a dot stays as it is, and of several
    dots only the first is taken (X.a.b becomes a.b). *)
Theorem prefix_stripping_takes_first_segment (pre rest : string) :
  has_char "." pre = false ->
  Re.sub_at_start prefix_pattern pre = pre /\
  Re.sub_at_start prefix_pattern (String "." rest) = String "." rest /\
  (pre <> EmptyString ->
   Re.sub_at_start prefix_pattern (pre ++ String "." rest) = rest).
Proof.
  intros Hpre. unfold Re.sub_at_start. rewrite !residuals_prefix_pattern.
  repeat split.
  - now rewrite residuals_dot_no_dot
      by (apply after_run_not_no_char; assumption).
  - intros Hne.
    destruct (after_run_not_up_to "." pre rest Hpre Hne) as [others ->].
    reflexivity.
Qed.

Lemma prefix_stripping_takes_first_segment_witness :
  Re.sub_at_start prefix_pattern "X" = "X"%string /\
  Re.sub_at_start prefix_pattern (String "." "a.b") = String "." "a.b" /\
  ("X"%string <> EmptyString ->
   Re.sub_at_start prefix_pattern ("X" ++ String "." "a.b") = "a.b"%string).
Proof.
  apply (prefix_stripping_takes_first_segment "X" "a.b" eq_refl).
Defined.

(** ** Rows and columns of the table returned *)

Lemma concat_frames_rows_length frames :
  length (Frame.rows (Frame.concat_frames frames))
  = length (concat (map Frame.rows frames)).
Proof.
  unfold Frame.concat_frames. cbn [Frame.rows].
  generalize (Frame.unique_from [] (concat (map Frame.columns frames))).
  intros cols. induction frames as [|f frames IH]; [reflexivity|].
  simpl. rewrite !length_app, IH. unfold Frame.reindex.
  now rewrite length_map.
Qed.

(** X14: the column post-processing takes no row away and adds none: the
    table a run returns has as many rows as the frames the bundles brought
    back have together. *)
Theorem returned_table_keeps_every_row {platform : Platform}
    (p : params) (w : world) (t : Frame.t) (w' : world) :
  request p w = (Ok t, w') ->
  exists bundles contents,
    prepare p = Ok bundles /\
    fst (fst (process_all bundles (make_ops p) w)) = Ok contents /\
    length (Frame.rows t) = length (returned_rows contents).
Proof.
  intros Hreq.
  destruct (request_ok_inv _ _ _ _ Hreq)
    as [bundles [contents [res [Hp [Hc [Hcat Hfin]]]]]].
  exists bundles, contents. repeat split; auto.
  unfold finalize in Hfin. inversion Hfin as [[Hsel Hw']].
  destruct (pandas_concat_ok _ _ Hcat) as [-> _].
  rewrite (select_frameworks_rows_length _ _ _ _ Hsel),
    drop_metadata_rows_length.
  apply concat_frames_rows_length.
Qed.

Lemma returned_table_keeps_every_row_witness :
  exists bundles contents,
    prepare (platform := sample_platform) (default_params four_texts 2)
    = Ok bundles /\
    fst (fst (process_all bundles (make_ops (default_params four_texts 2))
                echo_world)) = Ok contents /\
    length (Frame.rows four_texts_table) = length (returned_rows contents).
Proof.
  apply (returned_table_keeps_every_row (platform := sample_platform)
           (default_params four_texts 2) echo_world four_texts_table
           (snd (request (platform := sample_platform)
                   (default_params four_texts 2) echo_world))).
  vm_compute. reflexivity.
Defined.

(** X15: whatever frameworks are selected, their names being made of
    letters, digits and underscores, and whether or not the prefixes are
    stripped, a request_id column of the results is a column of the table
    returned. *)
Theorem request_id_column_is_returned (p : params) (res : Frame.t) (w : world)
    (t : Frame.t) :
  plain_frameworks (frameworks p) = true ->
  fst (finalize p res w) = Ok t ->
  In "request_id"%string (Frame.columns res) ->
  In "request_id"%string (Frame.columns t).
Proof.
  intros _. unfold finalize. cbn [fst]. intros Hsel Hin.
  assert (Hd : In "request_id"%string (Frame.columns (drop_metadata res))).
  { apply drop_metadata_columns. split; [assumption|].
    simpl. intuition discriminate. }
  revert Hsel. generalize (drop_metadata res) Hd. clear Hin Hd.
  intros f Hd. unfold select_frameworks.
  assert (Hstrip : Re.sub_at_start prefix_pattern "request_id"
                   = "request_id"%string) by reflexivity.
  destruct (frameworks p) as [fw|]; simpl.
  - destruct (resolve_frameworks_request_id fw (framework_prefix p))
      as [select Hsel].
    destruct (resolve_frameworks fw (framework_prefix p)) as [select' pre'].
    simpl in Hsel. subst select'.
    destruct (joinable (SelStr "request_id" :: select)) as [names|e] eqn:J;
      [|discriminate].
    destruct (joinable_request_id _ _ J) as [names' ->].
    cbn [bind fst snd].
    assert (Hk : In "request_id"%string
                   (filter (Re.search_at_start
                              (select_pattern ("request_id"%string :: names')))
                           (Frame.columns f))).
    { apply filter_In. split; [assumption|apply search_request_id]. }
    destruct pre' as [[|]|]; intros H; injection H as <-;
      cbn [Frame.columns Frame.rename_columns Frame.select_columns];
      try assumption.
    rewrite <- Hstrip. now apply in_map.
  - destruct (framework_prefix p) as [[|]|]; intros H; injection H as <-;
      cbn [Frame.columns Frame.rename_columns]; try assumption.
    rewrite <- Hstrip. now apply in_map.
Qed.

Lemma request_id_column_is_returned_witness :
  In "request_id"%string
     (Frame.columns {| Frame.columns := ["request_id"; "error"]%string;
                       Frame.rows := [[Some "k"; Some "0.5"]]%string |}).
Proof.
  apply (request_id_column_is_returned output_params
           {| Frame.columns := ["request_id"; "language"; "X.error"]%string;
              Frame.rows := [[Some "k"; Some "en"; Some "0.5"]]%string |}
           echo_world).
  - reflexivity.
  - reflexivity.
  - simpl. auto.
Defined.

(** ** Files and errors *)

Lemma find_filter {A} (f g : A -> bool) (l : list A) :
  (forall x, f x = true -> g x = true) ->
  find f (filter g l) = find f l.
Proof.
  intros H. induction l as [|x l IH]; simpl; [reflexivity|].
  destruct (g x) eqn:G; simpl.
  - now rewrite IH.
  - destruct (f x) eqn:F; [|assumption].
    rewrite (H x F) in G. discriminate.
Qed.

Lemma read_file_to_csv_other path path' f w :
  path <> path' -> read_file path' (to_csv path f w) = read_file path' w.
Proof.
  intros Hne. unfold read_file, to_csv. cbn [files find fst].
  destruct (String.eqb_spec path path') as [|_]; [contradiction|].
  rewrite find_filter; [reflexivity|].
  intros [q g] Hq. simpl in *. apply String.eqb_eq in Hq. subst q.
  apply negb_true_iff. now apply String.eqb_neq.
Qed.

Lemma request_files {platform : Platform} p w :
  files (snd (request p w)) = files w \/
  exists path res, output p = Some path /\
                   files (snd (request p w)) = files (to_csv path res w).
Proof.
  unfold request.
  destruct (match output p with
            | Some path => isfile path w && negb (overwrite p)
            | None => false
            end); [now left|].
  destruct (negb (api_status w =? 200)%Z); [now left|].
  destruct (prepare p) as [bundles|e]; [|now left].
  pose proof (process_all_effects bundles (make_ops p) w) as [_ [Hf _]].
  destruct (fst (fst (process_all bundles (make_ops p) w))) as [contents|e];
    [|now left].
  destruct (pandas_concat contents) as [res|e]; [|now left].
  unfold finalize. cbn [snd].
  destruct (output p) as [path|]; [|now left].
  right. exists path, res. split; [reflexivity|].
  unfold to_csv. cbn [files]. now rewrite Hf.
Qed.

(** X16: a run writes no file but the one [output] names: every other file
    reads after the run, finished or failed, as it did before, and without
    an [output] no file changes at all. *)
Theorem run_writes_only_output {platform : Platform} (p : params) (w : world)
    (path : string) :
  output p <> Some path ->
  read_file path (snd (request p w)) = read_file path w /\
  (output p = None -> files (snd (request p w)) = files w).
Proof.
  intros Hne. destruct (request_files p w) as [Hf|[out [res [Hout Hf]]]].
  - split; [|auto]. unfold read_file. now rewrite Hf.
  - split; [|congruence].
    transitivity (read_file path (to_csv out res w)).
    + unfold read_file. now rewrite Hf.
    + apply read_file_to_csv_other. congruence.
Qed.

Lemma run_writes_only_output_witness :
  read_file "other.csv"
    (snd (request (platform := sample_platform) output_params language_world))
  = read_file "other.csv" language_world /\
  (output output_params = None ->
   files (snd (request (platform := sample_platform) output_params
                 language_world))
   = files language_world).
Proof.
  apply (run_writes_only_output (platform := sample_platform) output_params
           language_world "other.csv"%string).
  discriminate.
Defined.

(** X17: a run that ends with one of the errors raised before line 174
    (the output file exists, the API status is not 200, the ids do not
    match the texts, the grouping fails, a text is over the limit) has
    sent no bulk POST, has not slept and has written no file. *)
Theorem early_errors_leave_the_world {platform : Platform} (p : params)
    (w : world) (e : exn) :
  fst (request p w) = Raise e ->
  e = OutputFileExists \/ (exists code, e = ApiStatusFailed code) \/
  e = IdsLengthMismatch \/ e = GrouperAxisLength \/ e = TextOverBundleLimit ->
  posts (snd (request p w)) = posts w /\
  slept (snd (request p w)) = slept w /\
  files (snd (request p w)) = files w.
Proof.
  intros H He.
  enough (Hw : snd (request p w) = w) by (now rewrite Hw).
  revert H. unfold request. intros H.
  destruct (match output p with
            | Some path => isfile path w && negb (overwrite p)
            | None => false
            end); [reflexivity|].
  destruct (negb (api_status w =? 200)%Z); [reflexivity|].
  destruct (prepare p) as [bundles|e0]; [|reflexivity].
  exfalso.
  destruct (fst (fst (process_all bundles (make_ops p) w)))
    as [contents|e1] eqn:E.
  - destruct (pandas_concat contents) as [res|e2] eqn:C.
    + unfold finalize in H. cbn [fst] in H.
      apply select_frameworks_raises in H. subst e.
      destruct He as [He|[[c He]|[He|[He|He]]]]; discriminate.
    + cbn [fst] in H. inversion H; subst e2.
      unfold pandas_concat in C. destruct contents as [|o contents].
      * inversion C; subst e.
        destruct He as [He|[[c He]|[He|[He|He]]]]; discriminate.
      * destruct (somes (o :: contents)); inversion C; subst e.
        destruct He as [He|[[c He]|[He|[He|He]]]]; discriminate.
  - cbn [fst] in H. inversion H; subst e1.
    apply process_all_raises in E.
    destruct E as [-> | ->];
      destruct He as [He|[[c He]|[He|[He|He]]]]; discriminate.
Qed.

Lemma early_errors_leave_the_world_witness :
  posts (snd (request (platform := sample_platform) oversized_params echo_world))
  = posts echo_world /\
  slept (snd (request (platform := sample_platform) oversized_params echo_world))
  = slept echo_world /\
  files (snd (request (platform := sample_platform) oversized_params echo_world))
  = files echo_world.
Proof.
  apply (early_errors_leave_the_world (platform := sample_platform)
           oversized_params echo_world TextOverBundleLimit).
  - vm_compute. reflexivity.
  - tauto.
Defined.

(** ** A run that succeeds *)

Lemma drop_seen_distinct data : forall seen,
  NoDup (map Data.text data) ->
  (forall t, In t (map Data.text data) -> ~ In t seen) ->
  drop_seen seen data = data.
Proof.
  induction data as [|x data IH]; intros seen Hnd Hseen; simpl; [reflexivity|].
  simpl in Hnd. inversion Hnd as [|? ? Hx Hnd']; subst.
  assert (E : existsb (text_eqb (Data.text x)) seen = false).
  { apply not_true_iff_false. rewrite existsb_text_In.
    apply Hseen. now left. }
  rewrite E. simpl. f_equal. apply IH; [assumption|].
  intros t Ht Hin. apply in_app_or in Hin. destruct Hin as [Hin|[<-|[]]].
  - apply (Hseen t); [now right|assumption].
  - contradiction.
Qed.

Lemma make_bundles_ok {platform : Platform} p data :
  length data = length (text p) ->
  (forall j, j < n_groups (length (text p)) (bundle_size p) ->
     (getsizeof_frame
        (rows_at_residue j (n_groups (length (text p)) (bundle_size p)) data)
      <= bundle_byte_limit p)%Z) ->
  exists bundles,
    make_bundles p data = Ok bundles /\
    Permutation (concat bundles) data /\
    length bundles
    = Nat.min (length (text p)) (n_groups (length (text p)) (bundle_size p)).
Proof.
  intros Hlen Hsize. unfold make_bundles, groupby. cbv zeta.
  set (keys := group_keys (length (text p)) (bundle_size p)).
  assert (Hk : length keys = length data)
    by (unfold keys; now rewrite group_keys_length).
  rewrite Hk, Nat.eqb_refl. cbn [bind].
  rewrite bundle_groups_within_limit.
  - eexists. split; [reflexivity|]. simpl. rewrite map_map. simpl. split.
    + apply groups_permutation; [apply sorted_keys_NoDup | assumption |].
      intros j. apply sorted_keys_In.
    + unfold keys. now rewrite length_map, sorted_group_keys, length_seq.
  - intros g Hg. apply in_map_iff in Hg. destruct Hg as [j [<- Hj]]. simpl.
    unfold keys. rewrite (rows_with_key_residue j _ _ data Hlen).
    apply Hsize. now apply group_key_lt.
Qed.

Lemma body_ok add txts :
  ~ In None txts -> exists b, body add txts = Ok b.
Proof.
  induction txts as [|[s|] txts IH]; intros H; simpl.
  - eauto.
  - destruct IH as [b ->]; [intros Hin; apply H; now right|].
    simpl. eauto.
  - exfalso. apply H. now left.
Qed.

Lemma body_length add txts : forall b,
  body add txts = Ok b -> length b = length txts.
Proof.
  induction txts as [|[s|] txts IH]; intros b; simpl.
  - intros H. now inversion H.
  - destruct (body add txts) as [b'|e]; simpl; [|discriminate].
    intros H. inversion H; subst. simpl. f_equal. now apply IH.
  - discriminate.
Qed.

(** With every text there and an endpoint that scores every item, each
    bundle is posted once and brings back a frame of as many rows as it has
    records. *)
Lemma process_all_scored_ok bundles : forall ops w,
  scores_every_item w ->
  (forall bundle r, In bundle bundles -> In r bundle -> Data.text r <> None) ->
  exists contents,
    fst (fst (process_all bundles ops w)) = Ok contents /\
    length (returned_rows contents) = length (concat bundles) /\
    (bundles <> [] -> somes contents <> []) /\
    length (posts (snd (process_all bundles ops w)))
    = length (posts w) + length bundles.
Proof.
  induction bundles as [|bundle bundles IH]; intros ops w Hw Htexts;
    cbn [process_all].
  - exists []. simpl. repeat split; auto; lia.
  - destruct (body_ok (add ops) (map Data.text bundle)) as [b Hb].
    { intros Hin. apply in_map_iff in Hin. destruct Hin as [r [Hr Hin]].
      apply (Htexts bundle r); auto. now left. }
    destruct (Hw (length (posts w)) b) as [Hs [f [Hres Hf]]].
    rewrite (_process_scored bundle ops w b f Hb Hs Hres). cbn [fst snd].
    destruct (IH ops (snd (post b w)) Hw) as [contents [Hc [Hrows [_ Hposts]]]].
    { intros bundle' r Hb' Hr. apply (Htexts bundle' r); auto. now right. }
    rewrite Hc. exists (Some f :: contents). repeat split.
    + unfold returned_rows in *. cbn [somes flat_map]. fold (somes contents).
      cbn [app map concat]. rewrite !length_app, Hrows. f_equal.
      rewrite <- (column_length "request_id" f), Hf, length_map.
      rewrite (body_length _ _ _ Hb). apply length_map.
    + intros _. discriminate.
    + rewrite Hposts. simpl. rewrite length_app. simpl. lia.
Qed.

Lemma select_frameworks_ok fw pre f :
  (forall x, fw <> Some (FwList [x])) ->
  exists t, select_frameworks fw pre f = Ok t.
Proof.
  intros Hfw. unfold select_frameworks.
  destruct fw as [[s|l]|]; simpl.
  - destruct pre as [[|]|]; eauto.
  - destruct l as [|x [|y l]]; simpl.
    + destruct pre as [[|]|]; eauto.
    + exfalso. now apply (Hfw x).
    + rewrite joinable_strings. simpl. destruct pre as [[|]|]; eauto.
  - destruct pre as [[|]|]; eauto.
Qed.

(** X18: a run succeeds when the output file may be written, the API is
    up, the ids fit, the texts are there and all different, no group is
    larger than the byte limit, the endpoint scores every item and
    [frameworks] holds names made of letters, digits and underscores and is
    not a list of one name.  It then returns a table with
    one row for each text, after one POST for each of the [min(n, k)]
    bundles; and when the prefixes are kept and [api_args] holds no
    request_id, the request_id column holds the digests of the texts, each
    once. *)
Theorem distinct_texts_are_all_scored {platform : Platform}
    (p : params) (w : world) (l : list ident) :
  (forall path, output p = Some path ->
                isfile path w = false \/ overwrite p = true) ->
  api_status w = 200%Z ->
  resolve_ids p = Ok l ->
  text p <> [] -> NoDup (text p) -> ~ In None (text p) ->
  (forall j, j < n_groups (length (text p)) (bundle_size p) ->
     (getsizeof_frame
        (rows_at_residue j (n_groups (length (text p)) (bundle_size p))
                         (DataFrame (text p) l))
      <= bundle_byte_limit p)%Z) ->
  scores_every_item w ->
  plain_frameworks (frameworks p) = true ->
  (forall x, frameworks p <> Some (FwList [x])) ->
  exists t,
    fst (request p w) = Ok t /\
    length (Frame.rows t) = length (text p) /\
    length (posts (snd (request p w)))
    = length (posts w)
      + Nat.min (length (text p)) (n_groups (length (text p)) (bundle_size p)) /\
    (strips_prefix (frameworks p) (framework_prefix p) = false ->
     dict_get "request_id" (add (make_ops p)) = None ->
     Permutation (Frame.column "request_id" t)
                 (map (option_map Md5.hexdigest) (text p))).
Proof.
  intros Hout Hstatus Hids Hne Hnd Hnone Hsize Hw _ Hfw.
  pose proof (resolve_ids_length _ _ Hids) as Hlen.
  set (data := DataFrame (text p) l) in *.
  assert (Htexts : map Data.text data = text p) by (now apply DataFrame_texts).
  assert (Hdata : length data = length (text p))
    by (now apply DataFrame_length).
  assert (Hdedup : deduplicated p l = data).
  { unfold deduplicated. fold data. rewrite drop_duplicates_drop_seen.
    apply drop_seen_distinct; [now rewrite Htexts | auto]. }
  destruct (make_bundles_ok p data Hdata Hsize)
    as [bundles [Hmake [Hperm Hcount]]].
  assert (Hprep : prepare p = Ok bundles).
  { unfold prepare. rewrite Hids. cbn [bind]. now rewrite Hdedup. }
  assert (Hpresent : forall bundle r,
            In bundle bundles -> In r bundle -> Data.text r <> None).
  { intros bundle r Hb Hr Ht. apply Hnone. rewrite <- Ht, <- Htexts.
    apply in_map. apply (Permutation_in _ Hperm).
    apply in_concat. eauto. }
  destruct (process_all_scored_ok bundles (make_ops p) w Hw Hpresent)
    as [contents [Hc [Hrows [Hsome Hposts]]]].
  assert (Hbne : bundles <> []).
  { intros ->. simpl in Hcount.
    pose proof (n_groups_bounds (length (text p)) (bundle_size p)) as [Hk _].
    assert (1 <= length (text p))
      by (destruct (text p); [congruence | simpl; lia]).
    lia. }
  specialize (Hsome Hbne).
  assert (Hcat : pandas_concat contents
                 = Ok (Frame.concat_frames (somes contents))).
  { unfold pandas_concat. destruct contents as [|o contents].
    - simpl in Hsome. congruence.
    - destruct (somes (o :: contents)); [congruence|reflexivity]. }
  destruct (select_frameworks_ok (frameworks p) (framework_prefix p)
              (drop_metadata (Frame.concat_frames (somes contents))) Hfw)
    as [t Hsel].
  assert (Hreq : request p w
                 = finalize p (Frame.concat_frames (somes contents))
                     (snd (process_all bundles (make_ops p) w))).
  { unfold request.
    assert (Hpre : match output p with
                   | Some path => isfile path w && negb (overwrite p)
                   | None => false
                   end = false).
    { destruct (output p) as [path|] eqn:O; [|reflexivity].
      destruct (Hout path eq_refl) as [-> | ->]; [reflexivity|].
      apply andb_false_r. }
    rewrite Hpre, Hstatus. cbn [Z.eqb Pos.eqb negb].
    now rewrite Hprep, Hc, Hcat. }
  exists t. rewrite Hreq. unfold finalize. cbn [fst snd]. repeat split.
  - exact Hsel.
  - rewrite (select_frameworks_rows_length _ _ _ _ Hsel),
      drop_metadata_rows_length, concat_frames_rows_length.
    fold (returned_rows contents). rewrite Hrows, (Permutation_length Hperm).
    exact Hdata.
  - destruct (output p); cbn [posts to_csv]; rewrite Hposts; f_equal;
      exact Hcount.
  - intros Hs Hadd.
    rewrite (select_frameworks_request_id _ _ _ _ Hsel Hs),
      drop_metadata_request_id, column_concat_frames,
      (process_all_scored bundles (make_ops p) w contents Hw Hadd Hc).
    rewrite <- Htexts, map_map.
    exact (Permutation_map content_key Hperm).
Qed.

Lemma distinct_texts_are_all_scored_witness :
  exists t,
    fst (request (platform := sample_platform) (default_params four_texts 2)
           echo_world) = Ok t /\
    length (Frame.rows t) = length four_texts /\
    length (posts (snd (request (platform := sample_platform)
                          (default_params four_texts 2) echo_world)))
    = length (posts echo_world) + Nat.min (length four_texts) (n_groups 4 2) /\
    (strips_prefix None None = false ->
     dict_get "request_id" (add (make_ops (default_params four_texts 2))) = None ->
     Permutation (Frame.column "request_id" t)
                 (map (option_map Md5.hexdigest) four_texts)).
Proof.
  apply (distinct_texts_are_all_scored (platform := sample_platform)
           (default_params four_texts 2) echo_world (default_ids 4)).
  - intros path H. discriminate.
  - reflexivity.
  - reflexivity.
  - discriminate.
  - repeat constructor; simpl; intuition discriminate.
  - simpl. intuition discriminate.
  - intros [|[|[|j]]] Hj; vm_compute; discriminate.
  - exact echo_world_scores.
  - reflexivity.
  - intros x. discriminate.
Defined.

(** ** Witnesses of the lemmas on errors *)

Lemma oversized_text_reported_witness :
  make_bundles (platform := sample_platform) oversized_params
    (DataFrame (text oversized_params) (default_ids 2))
  = Raise TextOverBundleLimit.
Proof.
  apply (oversized_text_reported (platform := sample_platform) oversized_params
           (DataFrame (text oversized_params) (default_ids 2))
           (record "twenty characters!!!" 2)).
  - intros g r' Hr'. cbn [getsizeof_text getsizeof_frame sample_platform].
    induction g as [|x g IH]; [destruct Hr'|].
    cbn [fold_right].
    assert (Hg : (16 <= fold_right
                     (fun r acc => sample_getsizeof_text (Data.text r) + 24 + acc)
                     16 g)%Z).
    { clear. induction g as [|y g IH]; cbn [fold_right]; [lia|].
      pose proof (sample_getsizeof_text_nonneg (Data.text y)). lia. }
    destruct Hr' as [->|Hr']; [lia|].
    specialize (IH Hr').
    pose proof (sample_getsizeof_text_nonneg (Data.text x)). lia.
  - reflexivity.
  - simpl. auto.
  - reflexivity.
Defined.

Lemma _process_first_response_decides_witness :
  fst (fst (_process bundle_b (make_ops (two_texts_params 50)) first_post_fails))
  <> Ok (Some (echo_results body_b)).
Proof.
  apply (_process_first_response_decides bundle_b
           (make_ops (two_texts_params 50)) first_post_fails body_b
           (echo_results body_b) eq_refl).
  simpl. discriminate.
Defined.

(** ** The rows of a run that succeeds *)

Lemma drop_seen_length data : forall seen,
  length (drop_seen seen data) <= length data.
Proof.
  induction data as [|x data IH]; intros seen; simpl; [lia|].
  destruct (negb (existsb (text_eqb (Data.text x)) seen) || blank (Data.text x));
    simpl; specialize (IH (seen ++ [Data.text x])); lia.
Qed.

(** A frame line 140 leaves at its length is left as it is. *)
Lemma drop_seen_same_length data : forall seen,
  length (drop_seen seen data) = length data -> drop_seen seen data = data.
Proof.
  induction data as [|x data IH]; intros seen; simpl; [reflexivity|].
  destruct (negb (existsb (text_eqb (Data.text x)) seen) || blank (Data.text x));
    simpl; intros H.
  - f_equal. apply IH. lia.
  - pose proof (drop_seen_length data (seen ++ [Data.text x])). lia.
Qed.

(** C1 (as amended): in a run that returns a table, from an endpoint that
    scores every item, with no group cut by the byte limit, no request_id
    among the [api_args] and plain framework names, the table has exactly
    one row for every record of the input: the records are those of the
    frame of the texts and their ids, none of which line 140 has removed;
    the rows stand in the order of the bundles, which hold the records by
    the remainder of their position in the division by the number of keys
    (a rearrangement of the input, not the order of the input); and the
    row of a record carries the digest of its text as its request_id, in
    the concatenated results and, when the prefixes are kept, in the table
    returned. *)
Theorem rows_follow_bundles {platform : Platform}
    (p : params) (w : world) (t : Frame.t) (w' : world) :
  scores_every_item w ->
  dict_get "request_id" (add (make_ops p)) = None ->
  plain_frameworks (frameworks p) = true ->
  (forall l j, resolve_ids p = Ok l ->
     j < n_groups (length (text p)) (bundle_size p) ->
     (getsizeof_frame
        (rows_at_residue j (n_groups (length (text p)) (bundle_size p))
                         (DataFrame (text p) l))
      <= bundle_byte_limit p)%Z) ->
  request p w = (Ok t, w') ->
  exists l contents res,
    resolve_ids p = Ok l /\
    let data := DataFrame (text p) l in
    let bundles :=
      residue_classes (n_groups (length (text p)) (bundle_size p)) data in
    map Data.text data = text p /\
    deduplicated p l = data /\
    prepare p = Ok bundles /\
    Permutation (concat bundles) data /\
    fst (fst (process_all bundles (make_ops p) w)) = Ok contents /\
    pandas_concat contents = Ok res /\
    length (Frame.rows t) = length (text p) /\
    Frame.column "request_id" res = map content_key (concat bundles) /\
    select_frameworks (frameworks p) (framework_prefix p) (drop_metadata res)
    = Ok t /\
    (strips_prefix (frameworks p) (framework_prefix p) = false ->
     Frame.column "request_id" t = map content_key (concat bundles)).
Proof.
  intros Hw Hadd _ Hsize Hreq.
  destruct (request_ok_inv _ _ _ _ Hreq)
    as [bundles [contents [res [Hp [Hc [Hcat Hfin]]]]]].
  unfold prepare in Hp.
  destruct (resolve_ids p) as [l|e] eqn:Hids; [|discriminate].
  cbn [bind] in Hp.
  change (negb (ndim (deduplicated p l) =? 0)) with true in Hp.
  cbv iota in Hp.
  pose proof (resolve_ids_length _ _ Hids) as Hlen.
  set (data := DataFrame (text p) l) in *.
  assert (Htexts : map Data.text data = text p) by (now apply DataFrame_texts).
  assert (Hdata : length data = length (text p))
    by (now apply DataFrame_length).
  destruct (make_bundles_groups _ _ _ Hp) as [Hkept _].
  assert (Hdedup : deduplicated p l = data).
  { unfold deduplicated in *. fold data in Hkept |- *.
    rewrite drop_duplicates_drop_seen in Hkept |- *.
    apply drop_seen_same_length. lia. }
  rewrite Hdedup in Hp.
  destruct (make_bundles_within_limit p data bundles (fun j => Hsize l j eq_refl) Hp)
    as [_ Hbundles].
  destruct (make_bundles_ok p data Hdata (fun j => Hsize l j eq_refl))
    as [bundles' [Hmake [Hperm _]]].
  assert (bundles' = bundles) by congruence. subst bundles'.
  assert (Hclasses : bundles
            = residue_classes (n_groups (length (text p)) (bundle_size p)) data).
  { unfold residue_classes. now rewrite Hdata. }
  exists l, contents, res. split; [reflexivity|]. cbv zeta. fold data.
  rewrite <- Hclasses.
  split; [exact Htexts|]. split; [exact Hdedup|]. split.
  { unfold prepare. rewrite Hids. cbn [bind].
    change (negb (ndim (deduplicated p l) =? 0)) with true. cbv iota.
    now rewrite Hdedup. }
  destruct (pandas_concat_ok _ _ Hcat) as [Hres _].
  assert (Hcol : Frame.column "request_id" res
                 = map content_key (concat bundles)).
  { rewrite Hres, column_concat_frames.
    apply (process_all_scored bundles (make_ops p) w contents Hw Hadd Hc). }
  unfold finalize in Hfin. inversion Hfin as [[Hsel Hw']].
  split; [exact Hperm|]. split; [exact Hc|]. split; [exact Hcat|]. split.
  { rewrite (select_frameworks_rows_length _ _ _ _ Hsel),
      drop_metadata_rows_length, <- (column_length "request_id"), Hcol,
      length_map, (Permutation_length Hperm).
    exact Hdata. }
  split; [exact Hcol|]. split; [reflexivity|].
  intros Hs.
  now rewrite (select_frameworks_request_id _ _ _ _ Hsel Hs),
    drop_metadata_request_id.
Qed.

Lemma rows_follow_bundles_witness :
  exists l contents res,
    resolve_ids (default_params four_texts 2) = Ok l /\
    let data := DataFrame four_texts l in
    let bundles := residue_classes (n_groups 4 2) data in
    map Data.text data = four_texts /\
    deduplicated (default_params four_texts 2) l = data /\
    prepare (platform := sample_platform) (default_params four_texts 2)
    = Ok bundles /\
    Permutation (concat bundles) data /\
    fst (fst (process_all bundles (make_ops (default_params four_texts 2))
                echo_world)) = Ok contents /\
    pandas_concat contents = Ok res /\
    length (Frame.rows four_texts_table) = 4 /\
    Frame.column "request_id" res = map content_key (concat bundles) /\
    select_frameworks None None (drop_metadata res) = Ok four_texts_table /\
    (strips_prefix None None = false ->
     Frame.column "request_id" four_texts_table
     = map content_key (concat bundles)).
Proof.
  apply (rows_follow_bundles (platform := sample_platform)
           (default_params four_texts 2) echo_world four_texts_table
           (snd (request (platform := sample_platform)
                   (default_params four_texts 2) echo_world))
           echo_world_scores eq_refl eq_refl).
  - intros l j H. injection H as <-.
    destruct j as [|[|[|j]]]; intros Hj; vm_compute; discriminate.
  - vm_compute. reflexivity.
Defined.

(** ** A bundle that is never scored *)



